(** * concord-khldl: anisotropy factors and walker set-up

    A shallow embedding of [src/anisotropy.py] (the function [anisotropy])
    and of [setup_positions] from [src/ctools.py] and
    [src/pytools/ctools.py], with the properties proved about them; then
    of [setup_sampler], [load_obs], [load_models], the frame loop of
    [animate_contours] and the batch selection of [combine_mcmc].

    Conventions of the embedding.
    - In the first reading a float64 is a real number or one of the IEEE
      special values ([npfloat]); the arithmetic is exact on finite
      values, a division by zero gives an infinity or a NaN as numpy
      does.  Rounding, overflow and the sign of zero are left out.
    - In the second reading ([f64]) a float64 is a binary64 value with
      the processor's rounded operations.  It is the one that counts
      where a property turns on the last digit: at 90 degrees, at the
      supplement of an angle, at the nodes of the table.
    - [print] and [ascii.read] are recorded as events of a trace.
    - The module global [anisotropy_he16] is threaded as explicit state.
    - Python lists that are shared between caller and callee live in a
      store indexed by references. *)

From Stdlib Require Import PrimFloat.
From Stdlib Require Floats.
From Stdlib Require Import Reals Lra Lia List String Ascii ZArith Permutation Sorted.
From Stdlib Require Import Machin Ratan.
From stdpp Require Import gmap pretty.
Import ListNotations.

Local Open Scope string_scope.
Local Open Scope list_scope.
Local Open Scope R_scope.

#[local] Set Warnings "-inexact-float".

(** ** numpy scalars *)

Module np.

Inductive npfloat : Type :=
| Fin (r : R)
| PInf
| NInf
| NaN.

Definition Rsign (r : R) : comparison :=
  match total_order_T r 0 with
  | inleft (left _) => Lt
  | inleft (right _) => Eq
  | inright _ => Gt
  end.

Definition inf_of (s : comparison) : npfloat :=
  match s with
  | Gt => PInf
  | Lt => NInf
  | Eq => NaN
  end.

Definition neg (x : npfloat) : npfloat :=
  match x with
  | Fin r => Fin (- r)
  | PInf => NInf
  | NInf => PInf
  | NaN => NaN
  end.

(** [abs(x)] *)
Definition abs (x : npfloat) : npfloat :=
  match x with
  | Fin r => Fin (Rabs r)
  | PInf | NInf => PInf
  | NaN => NaN
  end.

(** [x + y] *)
Definition add (x y : npfloat) : npfloat :=
  match x, y with
  | NaN, _ | _, NaN => NaN
  | Fin a, Fin b => Fin (a + b)
  | PInf, NInf | NInf, PInf => NaN
  | PInf, _ | _, PInf => PInf
  | NInf, _ | _, NInf => NInf
  end.

(** [x - y] *)
Definition sub (x y : npfloat) : npfloat := add x (neg y).

(** [x * y] *)
Definition mul (x y : npfloat) : npfloat :=
  match x, y with
  | NaN, _ | _, NaN => NaN
  | Fin a, Fin b => Fin (a * b)
  | Fin a, PInf | PInf, Fin a => inf_of (Rsign a)
  | Fin a, NInf | NInf, Fin a => inf_of (CompOpp (Rsign a))
  | PInf, PInf | NInf, NInf => PInf
  | PInf, NInf | NInf, PInf => NInf
  end.

(** [x / y]: numpy's true_divide.  A finite value divided by zero is an
    infinity with the sign of the dividend (NaN for 0/0); numpy warns
    and goes on, it does not raise. *)
Definition div (x y : npfloat) : npfloat :=
  match x, y with
  | NaN, _ | _, NaN => NaN
  | Fin a, Fin b => if Req_dec_T b 0 then inf_of (Rsign a) else Fin (a / b)
  | Fin _, (PInf | NInf) => Fin 0
  | (PInf | NInf), (PInf | NInf) => NaN
  | PInf, Fin b => if Rlt_dec b 0 then NInf else PInf
  | NInf, Fin b => if Rlt_dec b 0 then PInf else NInf
  end.

Definition is_finite (x : npfloat) : Prop := exists r, x = Fin r.

(** [a[i]] on a sequence: a negative index counts from the end. *)
Definition getitem {A} (d : A) (a : list A) (i : Z) : A :=
  if (i <? 0)%Z then nth (Z.to_nat (Z.of_nat (length a) + i)) a d
  else nth (Z.to_nat i) a d.

(** [np.clip(i, lo, hi)] = [minimum(maximum(i, lo), hi)] *)
Definition clip (i lo hi : Z) : Z := Z.min (Z.max i lo) hi.

(** [np.searchsorted(x, v)] (side ['left']) on an ascending [x]: the
    first index whose entry is not below [v]. *)
Fixpoint searchsorted (x : list R) (v : R) : nat :=
  match x with
  | [] => 0%nat
  | a :: x' => if Rlt_dec a v then S (searchsorted x' v) else 0%nat
  end.

End np.

(** ** astropy quantities (angles) *)

Module u.

Inductive unit : Type := degree | radian.

Record Quantity : Type := mkQuantity { value : R; unit_of : unit }.

(** [q.to(target)] *)
Definition to (q : Quantity) (target : unit) : Quantity :=
  match unit_of q, target with
  | degree, degree | radian, radian => q
  | degree, radian => mkQuantity (value q * (PI / 180)) radian
  | radian, degree => mkQuantity (value q * (180 / PI)) degree
  end.

(** [np.cos(q)]: the quantity is converted to radians first. *)
Definition cos (q : Quantity) : np.npfloat :=
  np.Fin (Rtrigo_def.cos (value (to q radian))).

End u.

(** ** Python-level values, exceptions and effects *)

Inductive exn : Type :=
| ValueError (msg : string).

Inductive outcome (A : Type) : Type :=
| Return (a : A)
| Raise (e : exn).
Arguments Return {A} a.
Arguments Raise {A} e.

Inductive pyval : Type :=
| PyNone
| PyFloat (x : np.npfloat).

Inductive event : Type :=
| Printed (line : string)
| FileRead (name : string).

(** [print(a, b, ...)]: the arguments separated by one blank. *)
Definition print (args : list string) : event :=
  Printed (String.concat " " args).

(** The [inclination] argument: a bare number has no attribute [unit]. *)
Inductive angle_arg : Type :=
| Bare (x : R)
| WithUnit (q : u.Quantity).

(** ** scipy.interpolate.interp1d, linear, default options *)

Module scipy.

(** The three interpolated columns at one abscissa. *)
Abbreviation vec3 := (R * R * R)%type.

(** An abscissa with its three values. *)
Abbreviation node := (R * (R * R * R))%type.

(** An [interp1d] object: abscissae [x] ascending, with their [y]. *)
Record interp1d : Type := mkInterp1d { nodes : list node }.

Definition xs (f : interp1d) : list R := map fst (nodes f).
Definition ys (f : interp1d) : list vec3 := map snd (nodes f).

(** [assume_sorted=False]: a stable sort of the nodes by abscissa
    ([np.argsort(x, kind="mergesort")]). *)
Fixpoint insert (a : node) (l : list node) : list node :=
  match l with
  | [] => [a]
  | b :: l' => if Rle_dec (fst a) (fst b) then a :: b :: l' else b :: insert a l'
  end.

Fixpoint argsort (l : list node) : list node :=
  match l with
  | [] => []
  | a :: l' => insert a (argsort l')
  end.

(** [interp1d(x, y)] with [kind='linear']: at least one entry. *)
Definition init (x : list R) (y : list vec3) : outcome interp1d :=
  match x with
  | [] => Raise (ValueError "x and y arrays must have at least 1 entries")
  | _ :: _ => Return (mkInterp1d (argsort (combine x y)))
  end.

(** One column of [slope*(x_new - x_lo) + y_lo] with
    [slope = (y_hi - y_lo)/(x_hi - x_lo)]. *)
Definition lerp (x_lo x_hi y_lo y_hi x_new : R) : np.npfloat :=
  let slope := np.div (np.sub (np.Fin y_hi) (np.Fin y_lo))
                      (np.sub (np.Fin x_hi) (np.Fin x_lo)) in
  np.add (np.mul slope (np.sub (np.Fin x_new) (np.Fin x_lo))) (np.Fin y_lo).

(** [_call_linear] *)
Definition call_linear (f : interp1d) (x_new : R)
  : np.npfloat * np.npfloat * np.npfloat :=
  let n := Z.of_nat (length (xs f)) in
  let x_new_indices :=
    np.clip (Z.of_nat (np.searchsorted (xs f) x_new)) 1 (n - 1) in
  let lo := (x_new_indices - 1)%Z in
  let hi := x_new_indices in
  let x_lo := np.getitem 0 (xs f) lo in
  let x_hi := np.getitem 0 (xs f) hi in
  let '(a_lo, b_lo, c_lo) := np.getitem (0, 0, 0) (ys f) lo in
  let '(a_hi, b_hi, c_hi) := np.getitem (0, 0, 0) (ys f) hi in
  (lerp x_lo x_hi a_lo a_hi x_new,
   lerp x_lo x_hi b_lo b_hi x_new,
   lerp x_lo x_hi c_lo c_hi x_new).

(** [f(x_new)]: [bounds_error] is true by default, so a query below
    [x[0]] or above [x[-1]] raises. *)
Definition call (f : interp1d) (x_new : R)
  : outcome (np.npfloat * np.npfloat * np.npfloat) :=
  let y_new := call_linear f x_new in
  if Rlt_dec x_new (np.getitem 0 (xs f) 0) then
    Raise (ValueError "A value in x_new is below the interpolation range.")
  else if Rlt_dec (np.getitem 0 (xs f) (-1)) x_new then
    Raise (ValueError "A value in x_new is above the interpolation range.")
  else Return y_new.

End scipy.

(** ** src/anisotropy.py *)

(** A row of the reference table [anisotropy_he16.txt]: inclination in
    degrees, then the inverse disk, reflection and persistent factors. *)
Record row : Type := mkRow { col1 : R; col2 : R; col3 : R; col4 : R }.

Definition table : Type := list row.

(** The module globals that [anisotropy] reads and writes. *)
Record globals : Type := mkGlobals { anisotropy_he16 : option scipy.interp1d }.

(** The globals of a fresh process: the name is not bound yet. *)
Definition fresh_globals : globals := mkGlobals None.

(** [v = np.stack((a['col2'], a['col3'], a['col4']), axis=1).T] *)
Definition stack_columns (a : table) : list scipy.vec3 :=
  map (fun r => (col2 r, col3 r, col4 r)) a.

(** [anisotropy(inclination, model)] with [test=False] (the plotting
    branch is left out).  [disk] is what [anisotropy_he16.txt], which is
    assumed to be there, holds when the call is made. *)
Definition anisotropy (inclination : angle_arg) (model : string)
    (disk : table) (g : globals)
  : outcome (pyval * pyval) * list event * globals :=
  let '(theta, out) :=
    match inclination with
    | Bare x =>
        (u.mkQuantity x u.degree,
         [print ["** WARNING ** assuming inclination in degrees"]])
    | WithUnit q => (q, [])
    end in
  if String.eqb model "fuji88" then
    (Return (PyFloat (np.div (np.Fin 1) (np.add (np.Fin 0.5) (np.abs (u.cos theta)))),
             PyFloat (np.div (np.Fin 0.5) (np.abs (u.cos theta)))),
     out, g)
  else if String.eqb model "he16" then
    let '(loaded, out, g) :=
      match anisotropy_he16 g with
      | Some f => (Return f, out, g)
      | None =>
          let a := disk in
          let v := stack_columns a in
          match scipy.init (map col1 a) v with
          | Return f =>
              (Return f, out ++ [FileRead "anisotropy_he16.txt"],
               mkGlobals (Some f))
          | Raise e => (Raise e, out ++ [FileRead "anisotropy_he16.txt"], g)
          end
      end in
    match loaded with
    | Raise e => (Raise e, out, g)
    | Return f =>
        match scipy.call f (u.value (u.to theta u.degree)) with
        | Raise e => (Raise e, out, g)
        | Return (inv_xi_d, inv_xi_r, inv_xi_p) =>
            (Return (PyFloat (np.div (np.Fin 1) (np.add inv_xi_d inv_xi_r)),
                     PyFloat (np.div (np.Fin 1) inv_xi_p)),
             out, g)
        end
    end
  else
    (Return (PyNone, PyNone),
     out ++ [print ["** ERROR ** model "; model; " not yet implemented!"]],
     g).

(** ** Python list objects *)

(** A reference to a list object; the store maps references to the
    current contents of the lists. *)
Abbreviation ref := nat.

Module pylist.

(** [list(l)]: a new list object with the items of [l]. *)
Definition copy (l : ref) (h : gmap nat (list R)) : option (ref * gmap nat (list R)) :=
  match h !! l with
  | None => None
  | Some items => let r := fresh (dom h) in Some (r, <[r := items]> h)
  end.

(** [l.append(v)]: the object itself grows. *)
Definition append (l : ref) (v : R) (h : gmap nat (list R)) : gmap nat (list R) :=
  match h !! l with
  | None => h
  | Some items => <[l := items ++ [v]]> h
  end.

(** [len(l)] *)
Definition len (l : ref) (h : gmap nat (list R)) : nat :=
  match h !! l with
  | None => 0%nat
  | Some items => length items
  end.

End pylist.

(** [np.random.randn(ndim)] for walker [w]: [ndim] draws of the stream
    [noise]. *)
Definition randn (noise : nat -> nat -> R) (w ndim : nat) : list R :=
  map (noise w) (seq 0 ndim).

(** [params * (1 + mag * noise)], item by item. *)
Definition perturb (mag : R) (params noise : list R) : list R :=
  zip_with (fun p n => p * (1 + mag * n)) params noise.

(** ** src/ctools.py *)

Module ctools.

(** The list object built for the default of [params0] when the [def]
    is executed; every call that omits [params0] gets this object. *)
Definition params0_default : ref := 0%nat.

Definition initial_store : gmap nat (list R) :=
  {[ params0_default := [6.09; 60; 1.28] ]}.

(** [setup_positions(obs, nwalkers, params0, tshift, mag)];
    [params0 = None] stands for an omitted argument.  The result is
    [None] only on a dangling reference, which Python cannot produce. *)
Definition setup_positions {Burst : Type} (obs : list Burst) (nwalkers : nat)
    (params0 : option ref) (tshift mag : R) (noise : nat -> nat -> R)
    (h : gmap nat (list R))
  : option (list (list R) * gmap nat (list R)) :=
  let params0 := default params0_default params0 in
  match pylist.copy params0 h with
  | None => None
  | Some (params, h) =>
      let h := fold_left (fun h _ => pylist.append params tshift h)
                         (seq 0 (length obs)) h in
      let ndim := pylist.len params h in
      match h !! params with
      | None => None
      | Some items =>
          Some (map (fun i => perturb mag items (randn noise i ndim))
                    (seq 0 nwalkers),
                h)
      end
  end.

End ctools.

(** ** src/pytools/ctools.py *)

Module pytools_ctools.

Section define_sources.

(** [define_sources] is not part of the sources at hand: its two
    functions are parameters.  [get_pos] returns a list object and may
    build it on the way. *)
Variable get_pos : string -> gmap nat (list R) -> ref * gmap nat (list R).
Variable get_n_epochs : string -> nat.

(** [setup_positions(source, nwalkers, params, n_epochs, tshift, mag)] *)
Definition setup_positions (source : string) (nwalkers : nat)
    (params : option ref) (n_epochs : option nat) (tshift mag : R)
    (noise : nat -> nat -> R) (h : gmap nat (list R))
  : option (list (list R) * gmap nat (list R)) :=
  let '(params, h) :=
    match params with
    | None => get_pos source h
    | Some p => (p, h)
    end in
  let n_epochs :=
    match n_epochs with
    | None => get_n_epochs source
    | Some n => n
    end in
  let h := fold_left (fun h _ => pylist.append params tshift h)
                     (seq 0 n_epochs) h in
  let ndim := pylist.len params h in
  match h !! params with
  | None => None
  | Some items =>
      Some (map (fun i => perturb mag items (randn noise i ndim))
                (seq 0 nwalkers),
            h)
  end.

End define_sources.

End pytools_ctools.

(** ** A process: a sequence of calls to [anisotropy] *)

Record call : Type := mkCall {
  call_inclination : angle_arg;
  call_model : string;
  call_disk : table   (* the file on disk when the call is made *)
}.

Definition result {A S : Type} (r : A * list event * S) : A := fst (fst r).
Definition trace {A S : Type} (r : A * list event * S) : list event := snd (fst r).
Definition state {A S : Type} (r : A * list event * S) : S := snd r.

Fixpoint run (calls : list call) (g : globals)
  : list (outcome (pyval * pyval)) * list event * globals :=
  match calls with
  | [] => ([], [], g)
  | c :: calls' =>
      let r := anisotropy (call_inclination c) (call_model c) (call_disk c) g in
      let rs := run calls' (state r) in
      (result r :: result rs, trace r ++ trace rs, state rs)
  end.

Definition is_file_read (e : event) : bool :=
  match e with
  | FileRead _ => true
  | Printed _ => false
  end.

(** How often the reference table was read. *)
Definition file_reads (tr : list event) : nat :=
  length (List.filter is_file_read tr).

(** An inclination given in degrees, as a quantity. *)
Definition deg (theta : R) : angle_arg := WithUnit (u.mkQuantity theta u.degree).

(** The table that a tabulated-model call works from: the cached
    interpolator when there is one, the file on disk otherwise. *)
Definition serves (t : table) (disk : table) (g : globals) : Prop :=
  match anisotropy_he16 g with
  | None => disk = t
  | Some f => scipy.init (map col1 t) (stack_columns t) = Return f
  end.

(** The value in degrees that the tabulated model looks up. *)
Definition degrees_of (inclination : angle_arg) : R :=
  match inclination with
  | Bare x => x
  | WithUnit q => u.value (u.to q u.degree)
  end.

(** ** Auxiliary definitions for the statements *)

(** The order of the nodes by abscissa. *)
Definition le_x (a b : scipy.node) : Prop := fst a <= fst b.

(** The node that a row of the table becomes. *)
Definition node_of (r : row) : scipy.node := (col1 r, (col2 r, col3 r, col4 r)).

(** A table of two rows, for examples. *)
Definition two_rows : table := [mkRow 0 1.5 0.5 2; mkRow 90 0 0.25 0.5].

(** A process of three calls, for examples. *)
Definition three_calls : list call :=
  [mkCall (deg 45) "he16" two_rows;
   mkCall (Bare 30) "fuji88" two_rows;
   mkCall (deg 45) "he16" two_rows].

(** What the walkers are, given the list that [params] ends up with. *)
Definition walkers (mag : R) (noise : nat -> nat -> R) (nwalkers : nat)
    (l : list R) (tshift : R) (n : nat) : list (list R) :=
  map (fun i => perturb mag (l ++ repeat tshift n)
                  (randn noise i (length l + n)))
      (seq 0 nwalkers).

(** The layout of walker [w]: distance, inclination, 1+z, then one
    time-shift entry per epoch, entry [k] for pair [k]. *)
Definition laid_out (mag d i z tshift : R) (noise : nat -> nat -> R)
    (n : nat) (pos : list (list R)) (w : nat) : Prop :=
  nth w pos []
  = [d * (1 + mag * noise w 0%nat);
     i * (1 + mag * noise w 1%nat);
     z * (1 + mag * noise w 2%nat)]
    ++ map (fun k => tshift * (1 + mag * noise w (3 + k)%nat)) (seq 0 n)
  /\ length (nth w pos []) = (3 + n)%nat.

(** ** Further auxiliary definitions *)

(** The straight line through [(x_lo, y_lo)] and [(x_hi, y_hi)], at [x]. *)
Definition line (x_lo x_hi y_lo y_hi x : R) : R :=
  (y_hi - y_lo) / (x_hi - x_lo) * (x - x_lo) + y_lo.

(** What [interp1d] gives between the nodes [lo] and [hi]. *)
Definition between (lo hi : scipy.node) (x : R)
  : np.npfloat * np.npfloat * np.npfloat :=
  let '(x_lo, (a_lo, b_lo, c_lo)) := lo in
  let '(x_hi, (a_hi, b_hi, c_hi)) := hi in
  (np.Fin (line x_lo x_hi a_lo a_hi x),
   np.Fin (line x_lo x_hi b_lo b_hi x),
   np.Fin (line x_lo x_hi c_lo c_hi x)).

(** ** src/ctools.py: the sampler *)

Module ctools_sampler.

(** The keyword arguments that [setup_sampler] hands on to
    [setup_positions]; a missing one takes the default of
    [setup_positions]. *)
Record kwargs : Type := mkKwargs {
  kw_nwalkers : option nat;
  kw_params0 : option ref;
  kw_tshift : option R;
  kw_mag : option R
}.

Inductive py (A : Type) : Type :=
| Value (a : A)
| IndexError (msg : string).
Arguments Value {A} a.
Arguments IndexError {A} msg.

Section emcee.

Context {Burst Model Sampler : Type}.

(** [emcee.EnsembleSampler(nwalkers, ndim, burstclass.lhoodClass,
    args=(obs, models), threads=threads)]: the constructor belongs to
    emcee and is a parameter; [Sampler] is whatever it gives. *)
Variable EnsembleSampler :
  nat -> nat -> list Burst * list Model -> nat -> Sampler.

(** [setup_sampler(obs, models, pos, threads, **kwargs)] *)
Definition setup_sampler (obs : list Burst) (models : list Model)
    (pos : option (list (list R))) (threads : nat) (kw : kwargs)
    (noise : nat -> nat -> R) (h : gmap nat (list R))
  : option (py Sampler * gmap nat (list R)) :=
  let positions :=
    match pos with
    | None =>
        ctools.setup_positions obs (default 200%nat (kw_nwalkers kw))
          (kw_params0 kw) (default (-6.5) (kw_tshift kw))
          (default 0.001 (kw_mag kw)) noise h
    | Some pos => Some (pos, h)
    end in
  match positions with
  | None => None
  | Some (pos, h) =>
      let nwalkers := length pos in
      match pos with
      | [] => Some (IndexError "list index out of range", h)
      | pos0 :: _ =>
          let ndim := length pos0 in
          Some (Value (EnsembleSampler nwalkers ndim (obs, models) threads), h)
      end
  end.

End emcee.

End ctools_sampler.

(** ** Python ranges *)

Module py.

(** [range(start, stop, step)] as the list of its items; [None] is the
    ValueError for [step = 0].  The length is computed as CPython does. *)
Definition range (start stop step : Z) : option (list Z) :=
  if (step =? 0)%Z then None
  else
    let '(lo, hi, st) :=
      if (0 <? step)%Z then (start, stop, step) else (stop, start, (- step)%Z) in
    let n := if (hi <=? lo)%Z then 0%Z else ((hi - lo - 1) / st + 1)%Z in
    Some (map (fun k => (start + step * Z.of_nat k)%Z) (seq 0 (Z.to_nat n))).

(** [round(i / dt)] for integers with [0 < dt]: the nearest integer to
    the quotient, a tie going to the even one. *)
Definition round_quotient (i dt : Z) : Z :=
  let q := (i / dt)%Z in
  let r := (i mod dt)%Z in
  match (2 * r ?= dt)%Z with
  | Lt => q
  | Gt => (q + 1)%Z
  | Eq => if Z.even q then q else (q + 1)%Z
  end.

End py.

(** ** Frames of [animate_contours] (both versions of ctools.py) *)

(** The loop [for i in range(dt, nsteps, dt)]: each frame plots the first
    [i] steps of the chain and is saved under the number
    [cnt = round(i/dt)].  The list holds the pairs [(i, cnt)] in the order
    of the loop; [None] is the ValueError of [range] for [dt = 0]. *)
Definition animate_contours_frames (dt nsteps : Z) : option (list (Z * Z)) :=
  match py.range dt nsteps dt with
  | None => None
  | Some steps => Some (map (fun i => (i, py.round_quotient i dt)) steps)
  end.

(** ** Batches of [combine_mcmc] (src/pytools/ctools.py) *)

(** The local [all_batches]: [None] when neither branch binds it, in
    which case the loop over it raises UnboundLocalError.  [np.arange] on
    integers lists the same items as [range]. *)
Definition all_batches (source : string) (last_batch : Z) : option (list Z) :=
  if String.eqb source "gs1826" then
    let first_triplets := [4; 7; 9]%Z in
    match py.range 12 (last_batch + 1) 3 with
    | Some remaining_triplets => Some (first_triplets ++ remaining_triplets)
    | None => None
    end
  else if String.eqb source "4u1820" then
    let first_batch := 2%Z in
    let n_batch := 2%Z in
    py.range first_batch last_batch n_batch
  else None.

(** The batches that the loop of [combine_mcmc] reads the table of, in
    the order of the loop: those of [all_batches] without the ones listed
    in [exclude].  (An exception in the body ends the loop early.) *)
Definition combined_batches (source : string) (last_batch : Z)
    (exclude : list Z) : option (list Z) :=
  match all_batches source last_batch with
  | None => None
  | Some batches =>
      Some (List.filter (fun batch => negb (existsb (Z.eqb batch) exclude)) batches)
  end.

(** ** The neutron star of [load_models] (both versions of ctools.py) *)

Module load_models.

Inductive py (A : Type) : Type :=
| Value (a : A)
| ValueError (msg : string)
| ZeroDivisionError (msg : string).
Arguments Value {A} a.
Arguments ValueError {A} msg.
Arguments ZeroDivisionError {A} msg.

Section constants.

(** [const.G], [const.c], [const.M_sun] of astropy and the radius
    [R_NS] (12.1 km in one version, 11.6 km in the other), in SI units. *)
Variables G c M_sun R_NS : R.

(** [M_NS = ptable['mass'][idx] * const.M_sun] *)
Definition M_NS (mass : R) : R := mass * M_sun.

(** [opz = 1./sqrt(1.-2.*const.G*M_NS/(const.c**2*R_NS))] with
    [math.sqrt] and a division of Python floats: a negative argument is
    a ValueError, a zero root a ZeroDivisionError. *)
Definition opz (mass : R) : py R :=
  let arg := 1 - 2 * G * M_NS mass / (c ^ 2 * R_NS) in
  if Rlt_dec arg 0 then ValueError "math domain error"
  else if Req_dec_T (sqrt arg) 0 then ZeroDivisionError "float division by zero"
  else Value (1 / sqrt arg).

(** [g = const.G*M_NS/(R_NS**2/opz)] *)
Definition g (mass : R) : py R :=
  match opz mass with
  | Value opz => Value (G * M_NS mass / (R_NS ^ 2 / opz))
  | ValueError msg => ValueError msg
  | ZeroDivisionError msg => ZeroDivisionError msg
  end.

End constants.

End load_models.

(** ** src/ctools.py: loading observations and models *)

Module ctools_load.

Inductive error : Type :=
| KeyError (key : string)
| IndexError (msg : string)
| FileNotFoundError (file : string)
| ValueError (msg : string)
| ZeroDivisionError (msg : string)
| BurstError.   (* whatever a constructor of burstclass raises *)

Inductive py (A : Type) : Type :=
| Value (a : A)
| Raised (e : error).
Arguments Value {A} a.
Arguments Raised {A} e.

(** [s.endswith('/')] *)
Fixpoint ends_with_sep (s : string) : bool :=
  match s with
  | EmptyString => false
  | String ch EmptyString => Ascii.eqb ch "/"%char
  | String _ s' => ends_with_sep s'
  end.

(** [os.path.join(a, b)] of posixpath *)
Definition join (a b : string) : string :=
  match b with
  | String "/"%char _ => b
  | _ =>
      match a with
      | EmptyString => b
      | _ => if ends_with_sep a then a ++ b else a ++ "/" ++ b
      end
  end.

(** The dictionary [obs_files] of [load_obs]. *)
Definition obs_files (source : string) : option (list string) :=
  if String.eqb source "gs1826" then
    Some ["gs1826-24_3.530h.dat"; "gs1826-24_4.177h.dat"; "gs1826-24_5.14h.dat"]
  else if String.eqb source "4u1820" then
    Some ["4u1820-303_1.892h.dat"; "4u1820-303_2.681h.dat"]
  else None.

(** A row of the parameter table and of the summary table, with the
    columns that [load_models] reads. *)
Record ptable_row : Type := mkProw {
  id : Z; mass : R; x : R; z : R; accrate : R; xi : R
}.

Record mtable_row : Type := mkMrow { tDel : R; uTDel : R }.

(** The keyword arguments of [burstclass.KeplerBurst].  Quantities are
    held by their value in SI units. *)
Record KeplerBurst_args : Type := mkKeplerBurst {
  kb_filename : string; kb_path : string;
  kb_tdel : R; kb_tdel_err : R; kb_g : R; kb_R_NS : R;
  kb_xi : R; kb_lAcc : R; kb_Z : R; kb_X : R
}.

(** [np.where(ptable['id'] == run)[0]]: the positions of the matches. *)
Fixpoint where_id (run : Z) (ptable : list ptable_row) (pos : nat) : list nat :=
  match ptable with
  | [] => []
  | r :: ptable' =>
      if (id r =? run)%Z then pos :: where_id run ptable' (S pos)
      else where_id run ptable' (S pos)
  end.

Section collaborators.

Context {Burst Model : Type}.

(** [burstclass] is not among the sources at hand and pandas is a
    library: the two constructors and the two readers are parameters.
    [None] stands for an exception of a constructor, and for a file that
    is not there. *)
Variable ObservedBurst : string -> string -> option Burst.
Variable KeplerBurst : KeplerBurst_args -> option Model.
Variable read_csv : string -> option (list mtable_row).
Variable read_table : string -> option (list ptable_row).

(** [const.G], [const.c] and [const.M_sun] in SI units. *)
Variables G c M_sun : R.

(** The loop [for ob_file in ...: obs.append(ObservedBurst(ob_file,
    path=source_path))]. *)
Fixpoint load_obs_loop (files : list string) (source_path : string)
  : py (list Burst) :=
  match files with
  | [] => Value []
  | ob_file :: files' =>
      match ObservedBurst ob_file source_path with
      | None => Raised BurstError
      | Some b =>
          match load_obs_loop files' source_path with
          | Value obs => Value (b :: obs)
          | Raised e => Raised e
          end
      end
  end.

(** [load_obs(source, obs_path)] *)
Definition load_obs (source obs_path : string) : py (list Burst) :=
  let source_path := join obs_path source in
  match obs_files source with
  | None => Raised (KeyError source)
  | Some files => load_obs_loop files source_path
  end.

(** The body of the loop of [load_models] for one [run] and its
    [batch]. *)
Definition load_model (source basename params_prefix summ_prefix
    mean_path source_path : string) (run batch : Z) : py Model :=
  let batch_str := (source ++ "_" ++ pretty batch)%string in
  let mean_str :=
    (batch_str ++ "_" ++ basename ++ pretty run ++ "_mean.data")%string in
  let param_str := (params_prefix ++ "_" ++ batch_str ++ ".txt")%string in
  let summ_str := (summ_prefix ++ "_" ++ batch_str ++ ".txt")%string in
  let param_file := join source_path param_str in
  let mean_file := join mean_path mean_str in   (* currently not used *)
  let summ_file := join source_path summ_str in
  match read_csv summ_file with
  | None => Raised (FileNotFoundError summ_file)
  | Some mtable =>
  match read_table param_file with
  | None => Raised (FileNotFoundError param_file)
  | Some ptable =>
  match where_id run ptable 0 with
  | [] => Raised (IndexError "index 0 is out of bounds for axis 0 with size 0")
  | idx :: _ =>
      let p := nth idx ptable (mkProw 0 0 0 0 0 0) in
      let xi_ := 1.12 in
      let R_NS := 12.1 * 1000 in
      let X := x p in
      let Z := z p in
      let lAcc := accrate p * xi p in
      match load_models.g G c M_sun R_NS (mass p) with
      | load_models.ValueError msg => Raised (ValueError msg)
      | load_models.ZeroDivisionError msg => Raised (ZeroDivisionError msg)
      | load_models.Value g =>
          match nth_error mtable idx with
          | None => Raised (KeyError (pretty (Z.of_nat idx)))
          | Some m =>
              let tdel := tDel m / 3600 in
              let tdel_err := uTDel m / 3600 in
              match KeplerBurst (mkKeplerBurst mean_str mean_path tdel tdel_err
                                   g R_NS xi_ lAcc Z X) with
              | None => Raised BurstError
              | Some model => Value model
              end
          end
      end
  end end end.

(** The loop [for i, run in enumerate(runs): batch = batches[i]; ...;
    models.append(m)], from position [i] on. *)
Fixpoint load_models_loop (source basename params_prefix summ_prefix
    mean_path source_path : string) (i : nat) (runs batches : list Z)
  : py (list Model) :=
  match runs with
  | [] => Value []
  | run :: runs' =>
      match nth_error batches i with
      | None => Raised (IndexError "list index out of range")
      | Some batch =>
          match load_model source basename params_prefix summ_prefix
                  mean_path source_path run batch with
          | Raised e => Raised e
          | Value m =>
              match load_models_loop source basename params_prefix summ_prefix
                      mean_path source_path (S i) runs' batches with
              | Raised e => Raised e
              | Value models => Value (m :: models)
              end
          end
      end
  end.

(** [load_models(runs, batches, source, basename, params_prefix,
    summ_prefix, mean_path, source_path)] *)
Definition load_models (runs batches : list Z) (source basename params_prefix
    summ_prefix mean_path source_path : string) : py (list Model) :=
  load_models_loop source basename params_prefix summ_prefix mean_path
    source_path 0 runs batches.

End collaborators.

End ctools_load.

(** A file system with one parameter table and one summary table, and
    constructors that keep their arguments, for examples. *)
Definition example_read_table (file : string) : option (list ctools_load.ptable_row) :=
  Some [ctools_load.mkProw 4 1.4 0.7 0.02 0.08 1;
        ctools_load.mkProw 5 0 0.7 0.02 0.1 1].

Definition example_read_csv (file : string) : option (list ctools_load.mtable_row) :=
  Some [ctools_load.mkMrow 10800 360; ctools_load.mkMrow 7200 180].

Definition example_load_models (runs batches : list Z)
  : ctools_load.py (list ctools_load.KeplerBurst_args) :=
  ctools_load.load_models Some example_read_csv example_read_table 1 1 1
    runs batches "gs1826" "xrb" "params" "summ" "/grids/mean" "/grids/gs1826/".

(** ** src/pytools/ctools.py: loading models *)

Module pytools_load.

(** A row of the parameter table of the later version: the run is in the
    column [run]. *)
Record ptable_row : Type := mkProw {
  run : Z; mass : R; x : R; z : R; accrate : R; xi : R
}.

(** [np.where(ptable['run'] == run)[0]] *)
Fixpoint where_run (r : Z) (ptable : list ptable_row) (pos : nat) : list nat :=
  match ptable with
  | [] => []
  | p :: ptable' =>
      if (run p =? r)%Z then pos :: where_run r ptable' (S pos)
      else where_run r ptable' (S pos)
  end.

(** [for i, run in enumerate(runs): batch = batches[i]; ...;
    models.append(m)] with the rest of the body as [body], from position
    [i] on. *)
Fixpoint for_enumerate {Model : Type} (body : Z -> Z -> ctools_load.py Model)
    (i : nat) (runs batches : list Z) : ctools_load.py (list Model) :=
  match runs with
  | [] => ctools_load.Value []
  | r :: runs' =>
      match nth_error batches i with
      | None => ctools_load.Raised (ctools_load.IndexError "list index out of range")
      | Some batch =>
          match body r batch with
          | ctools_load.Raised e => ctools_load.Raised e
          | ctools_load.Value m =>
              match for_enumerate body (S i) runs' batches with
              | ctools_load.Raised e => ctools_load.Raised e
              | ctools_load.Value models => ctools_load.Value (m :: models)
              end
          end
      end
  end.

Section collaborators.

Context {Model Batches : Type}.

(** [manipulation.expand_batches] is not among the sources at hand, nor
    is [burstclass]; pandas is a library.  [read_table] is
    [pd.read_table] on a parameter file, [read_summ] is [pd.read_table] on
    a summary file; [None] stands for a file that is not there, and for an
    exception of the constructor. *)
Variable expand_batches : Batches -> string -> list Z.
Variable KeplerBurst : ctools_load.KeplerBurst_args -> option Model.
Variable read_table : string -> option (list ptable_row).
Variable read_summ : string -> option (list ctools_load.mtable_row).
Variables G c M_sun : R.

(** The body of the loop for one [run] and its [batch]; [path] is
    [kwargs.get('path', GRIDS_PATH)]. *)
Definition load_model (source basename params_prefix summ_prefix path : string)
    (r batch : Z) : ctools_load.py Model :=
  let batch_str := (source ++ "_" ++ pretty batch)%string in
  let mean_str :=
    (batch_str ++ "_" ++ basename ++ pretty r ++ "_mean.data")%string in
  let param_str := (params_prefix ++ "_" ++ batch_str ++ ".txt")%string in
  let summ_str := (summ_prefix ++ "_" ++ batch_str ++ ".txt")%string in
  let source_path := ctools_load.join (ctools_load.join path "sources") source in
  let param_file :=
    ctools_load.join (ctools_load.join source_path "params") param_str in
  let summ_file :=
    ctools_load.join (ctools_load.join source_path "summ") summ_str in
  let mean_path :=
    ctools_load.join (ctools_load.join source_path "mean_lightcurves") batch_str in
  match read_summ summ_file with
  | None => ctools_load.Raised (ctools_load.FileNotFoundError summ_file)
  | Some mtable =>
  match read_table param_file with
  | None => ctools_load.Raised (ctools_load.FileNotFoundError param_file)
  | Some ptable =>
  match where_run r ptable 0 with
  | [] =>
      ctools_load.Raised
        (ctools_load.IndexError "index 0 is out of bounds for axis 0 with size 0")
  | idx :: _ =>
      let p := nth idx ptable (mkProw 0 0 0 0 0 0) in
      let xi_ := 1.16 in
      let R_NS := 11.6 * 1000 in
      let X := x p in
      let Z := z p in
      let lAcc := accrate p * xi p in
      match load_models.g G c M_sun R_NS (mass p) with
      | load_models.ValueError msg => ctools_load.Raised (ctools_load.ValueError msg)
      | load_models.ZeroDivisionError msg =>
          ctools_load.Raised (ctools_load.ZeroDivisionError msg)
      | load_models.Value g =>
          match nth_error mtable idx with
          | None => ctools_load.Raised (ctools_load.KeyError (pretty (Z.of_nat idx)))
          | Some m =>
              let tdel := ctools_load.tDel m / 3600 in
              let tdel_err := ctools_load.uTDel m / 3600 in
              match KeplerBurst
                      (ctools_load.mkKeplerBurst mean_str mean_path tdel tdel_err
                         g R_NS xi_ lAcc Z X) with
              | None => ctools_load.Raised ctools_load.BurstError
              | Some model => ctools_load.Value model
              end
          end
      end
  end end end.

(** [load_models(runs, batches, source, basename, params_prefix,
    summ_prefix, path=path)] *)
Definition load_models (runs : list Z) (batches : Batches)
    (source basename params_prefix summ_prefix path : string)
  : ctools_load.py (list Model) :=
  let batches := expand_batches batches source in
  let runs :=
    match runs with
    | [r] => let nb := length batches in repeat r nb
    | _ => runs
    end in
  for_enumerate (load_model source basename params_prefix summ_prefix path)
    0 runs batches.

End collaborators.

End pytools_load.

(** ** src/pytools/ctools.py: the sampler *)

Module pytools_sampler.

(** The keyword arguments that [setup_sampler] hands on to
    [setup_positions]. *)
Record kwargs : Type := mkKwargs {
  kw_nwalkers : option nat;
  kw_params : option ref;
  kw_n_epochs : option nat;
  kw_tshift : option R;
  kw_mag : option R
}.

Section emcee.

Context {Burst Model Weights Sampler : Type}.

Variable get_pos : string -> gmap nat (list R) -> ref * gmap nat (list R).
Variable get_n_epochs : string -> nat.

(** [emcee.EnsembleSampler(nwalkers, ndim, burstclass.lhoodClass,
    args=(obs, models, weights, disc_model), threads=threads)] *)
Variable EnsembleSampler :
  nat -> nat -> list Burst * list Model * Weights * string -> nat -> Sampler.

(** [setup_sampler(obs, models, source, pos, threads, weights,
    disc_model, **kwargs)] *)
Definition setup_sampler (obs : list Burst) (models : list Model)
    (source : string) (pos : option (list (list R))) (threads : nat)
    (weights : Weights) (disc_model : string) (kw : kwargs)
    (noise : nat -> nat -> R) (h : gmap nat (list R))
  : option (ctools_sampler.py Sampler * gmap nat (list R)) :=
  let positions :=
    match pos with
    | None =>
        pytools_ctools.setup_positions get_pos get_n_epochs source
          (default 200%nat (kw_nwalkers kw)) (kw_params kw) (kw_n_epochs kw)
          (default (-6.5) (kw_tshift kw)) (default 0.001 (kw_mag kw)) noise h
    | Some pos => Some (pos, h)
    end in
  match positions with
  | None => None
  | Some (pos, h) =>
      let nwalkers := length pos in
      match pos with
      | [] => Some (ctools_sampler.IndexError "list index out of range", h)
      | pos0 :: _ =>
          let ndim := length pos0 in
          Some (ctools_sampler.Value
                  (EnsembleSampler nwalkers ndim
                     (obs, models, weights, disc_model) threads), h)
      end
  end.

End emcee.

End pytools_sampler.

(** * The code on IEEE doubles

    Where a property turns on rounding, the exact arithmetic above says
    nothing about the program.  The module [f64] reads [anisotropy] once
    more with the numbers the program holds: a [float] is a binary64
    value, and [+], [-], [*], [/] and the comparisons on it are the
    processor's ([PrimFloat]).  The conversion between degrees and
    radians and the whole of the tabulated model are computed so.  The
    cosine is the one step that is not arithmetic: [f64.cos] is the
    cosine of the double it is given, taken before it is rounded to a
    double, and the two quotients of the analytic model are formed from
    it as in the first reading. *)

Module f64.

(** The real number that a finite double stands for. *)
Definition to_R (x : float) : option R :=
  match FloatOps.Prim2SF x with
  | SpecFloat.S754_zero _ => Some 0
  | SpecFloat.S754_finite s m e =>
      Some (IZR (SpecFloat.cond_Zopp s (Zpos m)) * powerRZ 2 e)
  | SpecFloat.S754_infinity _ | SpecFloat.S754_nan => None
  end.

(** [np.cos(x)]: NaN at an infinity and at NaN. *)
Definition cos (x : float) : np.npfloat :=
  match to_R x with
  | Some r => np.Fin (Rtrigo_def.cos r)
  | None => np.NaN
  end.

(** [np.pi]: the double nearest pi. *)
Definition pi : float := 0x1.921fb54442d18p+1%float.

(** astropy defines the degree as [np.pi/180.] radians; the scale of a
    conversion is the quotient of the scales of the two units. *)
Definition degree_scale : float := (pi / 180)%float.

Record Quantity : Type := mkQuantity { value : float; unit_of : u.unit }.

(** [q.to(target)]: the value times the scale of the conversion. *)
Definition to (q : Quantity) (target : u.unit) : Quantity :=
  match unit_of q, target with
  | u.degree, u.degree | u.radian, u.radian => q
  | u.degree, u.radian => mkQuantity (degree_scale / 1 * value q)%float u.radian
  | u.radian, u.degree => mkQuantity (1 / degree_scale * value q)%float u.degree
  end.

Inductive angle_arg : Type :=
| Bare (x : float)
| WithUnit (q : Quantity).

(** A result: [None]; a double; or, for the analytic model, the real
    number that the two quotients give on the cosine of the double held.
    The program returns that number after three more roundings (of the
    cosine, of the sum and of the quotient), which are left out. *)
Inductive pyval : Type :=
| PyNone
| PyFloat (x : float)
| PyReal (x : np.npfloat).

(** *** interp1d *)

Abbreviation vec3 := (float * float * float)%type.

Abbreviation node := (float * (float * float * float))%type.

Record interp1d : Type := mkInterp1d { nodes : list node }.

Definition xs (f : interp1d) : list float := map fst (nodes f).
Definition ys (f : interp1d) : list vec3 := map snd (nodes f).

Fixpoint insert (a : node) (l : list node) : list node :=
  match l with
  | [] => [a]
  | b :: l' => if (fst a <=? fst b)%float then a :: b :: l' else b :: insert a l'
  end.

Fixpoint argsort (l : list node) : list node :=
  match l with
  | [] => []
  | a :: l' => insert a (argsort l')
  end.

Definition init (x : list float) (y : list vec3) : outcome interp1d :=
  match x with
  | [] => Raise (ValueError "x and y arrays must have at least 1 entries")
  | _ :: _ => Return (mkInterp1d (argsort (combine x y)))
  end.

(** [np.searchsorted(x, v)] *)
Fixpoint searchsorted (x : list float) (v : float) : nat :=
  match x with
  | [] => 0%nat
  | a :: x' => if (a <? v)%float then S (searchsorted x' v) else 0%nat
  end.

(** [slope = (y_hi - y_lo) / (x_hi - x_lo)], then
    [slope*(x_new - x_lo) + y_lo]: four roundings after the two
    differences. *)
Definition lerp (x_lo x_hi y_lo y_hi x_new : float) : float :=
  let slope := ((y_hi - y_lo) / (x_hi - x_lo))%float in
  (slope * (x_new - x_lo) + y_lo)%float.

Definition call_linear (f : interp1d) (x_new : float) : float * float * float :=
  let n := Z.of_nat (length (xs f)) in
  let x_new_indices :=
    np.clip (Z.of_nat (searchsorted (xs f) x_new)) 1 (n - 1) in
  let lo := (x_new_indices - 1)%Z in
  let hi := x_new_indices in
  let x_lo := np.getitem 0%float (xs f) lo in
  let x_hi := np.getitem 0%float (xs f) hi in
  let '(a_lo, b_lo, c_lo) := np.getitem (0, 0, 0)%float (ys f) lo in
  let '(a_hi, b_hi, c_hi) := np.getitem (0, 0, 0)%float (ys f) hi in
  (lerp x_lo x_hi a_lo a_hi x_new,
   lerp x_lo x_hi b_lo b_hi x_new,
   lerp x_lo x_hi c_lo c_hi x_new).

Definition call (f : interp1d) (x_new : float) : outcome (float * float * float) :=
  let y_new := call_linear f x_new in
  if (x_new <? np.getitem 0 (xs f) 0)%float then
    Raise (ValueError "A value in x_new is below the interpolation range.")
  else if (np.getitem 0 (xs f) (-1) <? x_new)%float then
    Raise (ValueError "A value in x_new is above the interpolation range.")
  else Return y_new.

(** *** src/anisotropy.py *)

(** A row of the table, as [ascii.read] parses it. *)
Record row : Type := mkRow { col1 : float; col2 : float; col3 : float; col4 : float }.

Definition table : Type := list row.

Record globals : Type := mkGlobals { anisotropy_he16 : option interp1d }.

Definition fresh_globals : globals := mkGlobals None.

Definition stack_columns (a : table) : list vec3 :=
  map (fun r => (col2 r, col3 r, col4 r)) a.

(** [anisotropy(inclination, model)], line by line as [anisotropy]
    above. *)
Definition anisotropy (inclination : angle_arg) (model : string)
    (disk : table) (g : globals)
  : outcome (pyval * pyval) * list event * globals :=
  let '(theta, out) :=
    match inclination with
    | Bare x =>
        (mkQuantity x u.degree,
         [print ["** WARNING ** assuming inclination in degrees"]])
    | WithUnit q => (q, [])
    end in
  if String.eqb model "fuji88" then
    (Return (PyReal (np.div (np.Fin 1)
                       (np.add (np.Fin 0.5) (np.abs (cos (value (to theta u.radian)))))),
             PyReal (np.div (np.Fin 0.5) (np.abs (cos (value (to theta u.radian)))))),
     out, g)
  else if String.eqb model "he16" then
    let '(loaded, out, g) :=
      match anisotropy_he16 g with
      | Some f => (Return f, out, g)
      | None =>
          let a := disk in
          let v := stack_columns a in
          match init (map col1 a) v with
          | Return f =>
              (Return f, out ++ [FileRead "anisotropy_he16.txt"],
               mkGlobals (Some f))
          | Raise e => (Raise e, out ++ [FileRead "anisotropy_he16.txt"], g)
          end
      end in
    match loaded with
    | Raise e => (Raise e, out, g)
    | Return f =>
        match call f (value (to theta u.degree)) with
        | Raise e => (Raise e, out, g)
        | Return (inv_xi_d, inv_xi_r, inv_xi_p) =>
            (Return (PyFloat (1 / (inv_xi_d + inv_xi_r))%float,
                     PyFloat (1 / inv_xi_p)%float),
             out, g)
        end
    end
  else
    (Return (PyNone, PyNone),
     out ++ [print ["** ERROR ** model "; model; " not yet implemented!"]],
     g).

(** *** Auxiliary definitions for the statements *)

Definition deg (theta : float) : angle_arg := WithUnit (mkQuantity theta u.degree).

Definition rad (theta : float) : angle_arg := WithUnit (mkQuantity theta u.radian).

(** The double whose cosine the analytic model takes. *)
Definition radians_of (inclination : angle_arg) : float :=
  match inclination with
  | Bare x => value (to (mkQuantity x u.degree) u.radian)
  | WithUnit q => value (to q u.radian)
  end.

(** The double that the tabulated model looks up. *)
Definition degrees_of (inclination : angle_arg) : float :=
  match inclination with
  | Bare x => x
  | WithUnit q => value (to q u.degree)
  end.

Definition serves (t : table) (disk : table) (g : globals) : Prop :=
  match anisotropy_he16 g with
  | None => disk = t
  | Some f => init (map col1 t) (stack_columns t) = Return f
  end.

(** Strictly ascending, as the processor compares. *)
Definition ascending (x : list float) : Prop :=
  StronglySorted (fun a b => (a <? b)%float = true) x.

Definition node_of (r : row) : node := (col1 r, (col2 r, col3 r, col4 r)).

Definition row0 : row := mkRow 0 0 0 0.

(** The double nearest pi/2: what 90 degrees becomes in radians. *)
Definition half_pi : float := 0x1.921fb54442d18p+0%float.

(** A table of two rows, for examples. *)
Definition two_rows : table := [mkRow 0 1.5 0.5 0.3; mkRow 10 1 0.25 0.1].

(** A table that ends at 29 degrees, for examples. *)
Definition up_to_29 : table := [mkRow 0 1.5 0.5 2; mkRow 29 1 0.25 0.5].

End f64.

(** * Properties *)

(** ** numpy arithmetic on finite values *)

Lemma Rsign_pos (r : R) : 0 < r -> np.Rsign r = Gt.
Proof.
  intros Hr. unfold np.Rsign.
  destruct (total_order_T r 0) as [[Hlt | Heq] | Hgt]; try reflexivity; lra.
Qed.

Lemma div_fin (a b : R) : b <> 0 -> np.div (np.Fin a) (np.Fin b) = np.Fin (a / b).
Proof.
  intros Hb. simpl. destruct (Req_dec_T b 0) as [E | _]; [contradiction | reflexivity].
Qed.

Lemma div_by_zero (a : R) : 0 < a -> np.div (np.Fin a) (np.Fin 0) = np.PInf.
Proof.
  intros Ha. simpl. destruct (Req_dec_T 0 0) as [_ | N]; [| contradiction].
  now rewrite Rsign_pos.
Qed.

Lemma cos_deg_pos (theta : R) :
  0 <= theta < 90 -> 0 < cos (theta * (PI / 180)).
Proof.
  intros [H0 H90]. pose proof PI_RGT_0 as Hpi.
  apply cos_gt_0; nra.
Qed.

(** ** The analytic model *)

Lemma fuji88_eval (inclination : angle_arg) (disk : table) (g : globals) :
  exists out,
    anisotropy inclination "fuji88" disk g =
      (Return (PyFloat (np.div (np.Fin 1)
                          (np.Fin (0.5 + Rabs (cos (degrees_of inclination * (PI / 180)))))),
               PyFloat (np.div (np.Fin 0.5)
                          (np.Fin (Rabs (cos (degrees_of inclination * (PI / 180))))))),
       out, g).
Proof.
  destruct inclination as [x | [v []]]; cbn; eexists; try reflexivity.
  unfold u.cos; cbn.
  replace (v * (180 / PI) * (PI / 180)) with v; [reflexivity |].
  pose proof PI_RGT_0. field. lra.
Qed.

(** C1.  For every inclination of at least 0 and less than 90 degrees
    (bare, in degrees or in radians), the analytic model 'fuji88' returns
    the pair xi_burst = 1/(0.5+|cos theta|), xi_persistent =
    0.5/|cos theta|; both are finite and strictly positive, and
    xi_burst * (0.5+|cos theta|) = 1. *)
Theorem anisotropy_fuji88_factors
    (inclination : angle_arg) (disk : table) (g : globals) :
  0 <= degrees_of inclination < 90 ->
  let c := Rabs (cos (degrees_of inclination * (PI / 180))) in
  let xi_b := 1 / (0.5 + c) in
  let xi_p := 0.5 / c in
  result (anisotropy inclination "fuji88" disk g)
    = Return (PyFloat (np.Fin xi_b), PyFloat (np.Fin xi_p))
  /\ 0 < xi_b /\ 0 < xi_p /\ xi_b * (0.5 + c) = 1.
Proof.
  intros Hrange c xi_b xi_p.
  pose proof (cos_deg_pos _ Hrange) as Hcos.
  assert (Hc : 0 < c) by (unfold c; rewrite Rabs_pos_eq; lra).
  split; [| split; [| split]].
  - destruct (fuji88_eval inclination disk g) as [out ->].
    unfold result; cbn [fst]. fold c.
    rewrite !div_fin by lra. reflexivity.
  - unfold xi_b. apply Rdiv_lt_0_compat; lra.
  - unfold xi_p. apply Rdiv_lt_0_compat; lra.
  - unfold xi_b. field. lra.
Qed.

Lemma anisotropy_fuji88_factors_witness :
  0 <= degrees_of (deg 60) < 90
  /\ result (anisotropy (deg 60) "fuji88" [] fresh_globals)
       = Return (PyFloat (np.Fin (1 / (0.5 + Rabs (cos (60 * (PI / 180)))))),
                 PyFloat (np.Fin (0.5 / Rabs (cos (60 * (PI / 180)))))).
Proof.
  assert (H : 0 <= degrees_of (deg 60) < 90) by (cbn; lra).
  split; [exact H |].
  exact (proj1 (anisotropy_fuji88_factors (deg 60) [] fresh_globals H)).
Defined.

(** In exact arithmetic: where the cosine of the inclination is zero,
    'fuji88' returns xi_persistent = +infinity next to xi_burst = 2.  The
    double that 90 degrees become has no such cosine: what the program
    does there is stated on doubles, further down. *)
Lemma exact_fuji88_singular
    (inclination : angle_arg) (disk : table) (g : globals) :
  cos (degrees_of inclination * (PI / 180)) = 0 ->
  result (anisotropy inclination "fuji88" disk g)
    = Return (PyFloat (np.Fin 2), PyFloat np.PInf)
  /\ forall xi_b xi_p,
       result (anisotropy inclination "fuji88" disk g)
         = Return (xi_b, PyFloat xi_p) ->
       ~ np.is_finite xi_p.
Proof.
  intros Hcos.
  assert (E : result (anisotropy inclination "fuji88" disk g)
              = Return (PyFloat (np.Fin 2), PyFloat np.PInf)).
  { destruct (fuji88_eval inclination disk g) as [out ->].
    unfold result; cbn [fst]. rewrite Hcos, Rabs_R0.
    rewrite div_by_zero by lra. rewrite div_fin by lra.
    replace (1 / (0.5 + 0)) with 2 by lra. reflexivity. }
  split; [exact E |].
  intros xi_b xi_p. rewrite E. intros [= _ <-] [r Hr]. discriminate Hr.
Qed.

Lemma cos_90_degrees : cos (degrees_of (deg 90) * (PI / 180)) = 0.
Proof.
  cbn. replace (90 * (PI / 180)) with (PI / 2) by field. apply cos_PI2.
Qed.

(** In exact arithmetic: for every theta in degrees, 'fuji88' returns
    the same at theta, at -theta and at 180-theta, for a quantity as for
    a bare number.  On doubles the symmetry under the sign flip stays,
    the one under the supplement does not; both are stated further
    down. *)
Lemma exact_fuji88_symmetric (theta : R) (disk : table) (g : globals) :
  anisotropy (deg theta) "fuji88" disk g = anisotropy (deg (- theta)) "fuji88" disk g
  /\ anisotropy (deg theta) "fuji88" disk g = anisotropy (deg (180 - theta)) "fuji88" disk g
  /\ anisotropy (Bare theta) "fuji88" disk g = anisotropy (Bare (- theta)) "fuji88" disk g
  /\ anisotropy (Bare theta) "fuji88" disk g = anisotropy (Bare (180 - theta)) "fuji88" disk g.
Proof.
  assert (Hneg : np.abs (u.cos (u.mkQuantity (- theta) u.degree))
                 = np.abs (u.cos (u.mkQuantity theta u.degree))).
  { unfold u.cos; cbn.
    replace (- theta * (PI / 180)) with (- (theta * (PI / 180))) by ring.
    now rewrite cos_neg. }
  assert (Hsup : np.abs (u.cos (u.mkQuantity (180 - theta) u.degree))
                 = np.abs (u.cos (u.mkQuantity theta u.degree))).
  { unfold u.cos; cbn.
    replace ((180 - theta) * (PI / 180)) with (PI - theta * (PI / 180)) by field.
    now rewrite Rtrigo_facts.cos_pi_minus, Rabs_Ropp. }
  repeat split; cbn -[np.abs np.div np.add u.cos];
    rewrite ?Hneg, ?Hsup; reflexivity.
Qed.

(** ** The unit of a bare number *)

Lemma one_degree_is_not_one_radian :
  result (anisotropy (Bare 1) "fuji88" [] fresh_globals)
    <> result (anisotropy (WithUnit (u.mkQuantity 1 u.radian)) "fuji88" []
                 fresh_globals).
Proof.
  pose proof PI_RGT_0 as Hpi. pose proof PI_4 as Hpi4. pose proof PI2_1 as H1.
  assert (Hd : 0 < cos (1 * (PI / 180))) by (apply cos_gt_0; lra).
  assert (Hr : 0 < cos 1) by (apply cos_gt_0; lra).
  assert (Hlt : cos 1 < cos (1 * (PI / 180)))
    by (apply cos_decreasing_1; lra).
  unfold result; cbn -[np.div]. unfold u.cos; cbn -[np.div].
  rewrite (Rabs_pos_eq (cos 1)), (Rabs_pos_eq (cos (1 * (PI / 180)))) by lra.
  rewrite !div_fin by lra.
  intros E. injection E as _ E.
  apply Rmult_eq_compat_r with (r := cos 1 * cos (1 * (PI / 180))) in E.
  field_simplify in E; lra.
Qed.

(** C7.  A bare number is read as an angle in degrees, for every model:
    the call does what the same call on the quantity in degrees does, and
    it says so first, in a warning line.  The reading is not radians. *)
Theorem anisotropy_bare_number_is_degrees
    (x : R) (model : string) (disk : table) (g : globals) :
  (let r := anisotropy (deg x) model disk g in
   anisotropy (Bare x) model disk g
     = (result r,
        Printed "** WARNING ** assuming inclination in degrees" :: trace r,
        state r))
  /\ result (anisotropy (Bare 1) "fuji88" [] fresh_globals)
       <> result (anisotropy (WithUnit (u.mkQuantity 1 u.radian)) "fuji88" []
                    fresh_globals).
Proof.
  split; [| exact one_degree_is_not_one_radian].
  unfold anisotropy, deg, result, trace, state.
  destruct (String.eqb model "fuji88"); [reflexivity |].
  destruct (String.eqb model "he16"); [| reflexivity].
  destruct (anisotropy_he16 g) as [f |].
  - destruct (scipy.call f _) as [[[a b] c] | e]; reflexivity.
  - destruct (scipy.init _ _) as [f | e]; [| reflexivity].
    destruct (scipy.call f _) as [[[a b] c] | e]; reflexivity.
Qed.

(** ** Unknown model names *)

(** C2, as the specification has it, fails: for a model name that is
    neither 'fuji88' nor 'he16' the call raises nothing and returns the
    pair (None, None). *)
Lemma unknown_model_is_not_an_error :
  result (anisotropy (deg 45) "kepler" [] fresh_globals)
    = Return (PyNone, PyNone)
  /\ ~ (exists e, result (anisotropy (deg 45) "kepler" [] fresh_globals)
                  = Raise e).
Proof.
  split; [reflexivity |].
  intros [e He]. discriminate He.
Qed.

(** C2, amended.  For every model name other than 'fuji88' and 'he16',
    the call raises no error: it prints an error line that names the
    rejected model (after the degrees warning, if the inclination was a
    bare number), returns the pair (None, None) and leaves the globals
    as they were. *)
Theorem anisotropy_unknown_model
    (inclination : angle_arg) (model : string) (disk : table) (g : globals) :
  model <> "fuji88" -> model <> "he16" ->
  let r := anisotropy inclination model disk g in
  result r = Return (PyNone, PyNone)
  /\ last (trace r)
       = Some (Printed ("** ERROR ** model  " ++ model ++ "  not yet implemented!"))
  /\ file_reads (trace r) = 0%nat
  /\ state r = g.
Proof.
  intros Hf Hh.
  apply String.eqb_neq in Hf. apply String.eqb_neq in Hh.
  unfold anisotropy. cbn zeta. rewrite Hf, Hh.
  destruct inclination as [x | q]; cbn; repeat split; reflexivity.
Qed.

Lemma anisotropy_unknown_model_witness :
  result (anisotropy (Bare 45) "kepler" [] fresh_globals)
    = Return (PyNone, PyNone).
Proof.
  refine (proj1 (anisotropy_unknown_model (Bare 45) "kepler" [] fresh_globals _ _));
    discriminate.
Defined.

(** ** The cache of the tabulated model *)

Lemma file_reads_app (tr1 tr2 : list event) :
  file_reads (tr1 ++ tr2) = (file_reads tr1 + file_reads tr2)%nat.
Proof.
  unfold file_reads. now rewrite List.filter_app, List.length_app.
Qed.

Lemma init_nonempty (a : table) :
  a <> [] -> exists f, scipy.init (map col1 a) (stack_columns a) = Return f.
Proof.
  destruct a as [| r a]; [contradiction |]. intros _. cbn. eauto.
Qed.

(** A call that finds the interpolator in the globals reads no file and
    leaves the globals alone, whatever the model. *)
Lemma anisotropy_cached (f : scipy.interp1d) (c : call) (g : globals) :
  anisotropy_he16 g = Some f ->
  let r := anisotropy (call_inclination c) (call_model c) (call_disk c) g in
  state r = g /\ file_reads (trace r) = 0%nat.
Proof.
  intros Hg. unfold anisotropy.
  destruct (call_inclination c) as [x | q];
    destruct (String.eqb (call_model c) "fuji88");
    try (split; reflexivity);
    destruct (String.eqb (call_model c) "he16");
    try (split; reflexivity);
    rewrite Hg;
    destruct (scipy.call f _) as [[[a b] d] | e]; split; reflexivity.
Qed.

(** A call of another model does not touch the cache. *)
Lemma anisotropy_other_model (c : call) (g : globals) :
  String.eqb (call_model c) "he16" = false ->
  let r := anisotropy (call_inclination c) (call_model c) (call_disk c) g in
  state r = g /\ file_reads (trace r) = 0%nat.
Proof.
  intros Hm. unfold anisotropy. rewrite Hm.
  destruct (call_inclination c) as [x | q];
    destruct (String.eqb (call_model c) "fuji88"); split; reflexivity.
Qed.

(** The first tabulated call reads the file once and binds the global. *)
Lemma anisotropy_first_load (c : call) (g : globals) :
  String.eqb (call_model c) "he16" = true ->
  anisotropy_he16 g = None ->
  call_disk c <> [] ->
  let r := anisotropy (call_inclination c) (call_model c) (call_disk c) g in
  (exists f, scipy.init (map col1 (call_disk c)) (stack_columns (call_disk c)) = Return f
             /\ state r = mkGlobals (Some f))
  /\ file_reads (trace r) = 1%nat.
Proof.
  intros Hm Hg Hd.
  assert (Hf : String.eqb (call_model c) "fuji88" = false).
  { apply String.eqb_eq in Hm. now rewrite Hm. }
  destruct (init_nonempty _ Hd) as [f Hinit].
  unfold anisotropy. rewrite Hf, Hm, Hg, Hinit.
  destruct (call_inclination c) as [x | q];
    destruct (scipy.call f _) as [[[a b] d] | e];
    (split; [exists f; split; reflexivity | reflexivity]).
Qed.

Lemma run_reads (calls : list call) (g : globals) :
  Forall (fun c => call_disk c <> []) calls ->
  file_reads (trace (run calls g))
  = match anisotropy_he16 g with
    | Some _ => 0%nat
    | None =>
        if existsb (fun c => String.eqb (call_model c) "he16") calls
        then 1%nat else 0%nat
    end.
Proof.
  intros Hdisk. revert g.
  induction Hdisk as [| c calls Hc _ IH]; intros g.
  - cbn. now destruct (anisotropy_he16 g).
  - cbn [run existsb]. unfold trace at 1; cbn [fst snd].
    rewrite file_reads_app, IH.
    destruct (anisotropy_he16 g) as [f |] eqn:Hg.
    + destruct (anisotropy_cached f c g Hg) as [-> ->]. now rewrite Hg.
    + destruct (String.eqb (call_model c) "he16") eqn:Hm.
      * destruct (anisotropy_first_load c g Hm Hg Hc) as [(f & _ & ->) ->].
        reflexivity.
      * destruct (anisotropy_other_model c g Hm) as [-> ->]. now rewrite Hg.
Qed.

(** Two tabulated calls in a row with the same inclination agree, and
    the second one works from the cache. *)
Lemma anisotropy_he16_twice
    (inclination : angle_arg) (disk1 disk2 : table) (g : globals) :
  disk1 <> [] ->
  let r1 := anisotropy inclination "he16" disk1 g in
  let r2 := anisotropy inclination "he16" disk2 (state r1) in
  result r2 = result r1 /\ file_reads (trace r2) = 0%nat /\ state r2 = state r1.
Proof.
  intros Hd. unfold anisotropy. cbn [String.eqb Ascii.eqb Bool.eqb].
  destruct (anisotropy_he16 g) as [f |] eqn:Hg.
  - destruct inclination as [x | q];
      destruct (scipy.call f _) as [[[a b] d] | e] eqn:Hcall;
      cbn [state snd]; rewrite Hg, Hcall; repeat split; reflexivity.
  - destruct (init_nonempty _ Hd) as [f ->].
    destruct inclination as [x | q];
      destruct (scipy.call f _) as [[[a b] d] | e] eqn:Hcall;
      cbn [state snd anisotropy_he16]; rewrite Hcall; repeat split; reflexivity.
Qed.

(** C5.  In a process, that is a sequence of calls started without the
    global, the reference table is read exactly once if the tabulated
    model is called at all (never otherwise); from then on no call changes
    the cached interpolator; and two tabulated calls with the same
    inclination return identical results, the second without reading the
    file, even if the file changed in between. *)
Theorem anisotropy_he16_loaded_once (calls : list call) :
  Forall (fun c => call_disk c <> []) calls ->
  let r := run calls fresh_globals in
  file_reads (trace r)
    = (if existsb (fun c => String.eqb (call_model c) "he16") calls
       then 1%nat else 0%nat)
  /\ (forall c f,
        anisotropy_he16 (state r) = Some f ->
        state (anisotropy (call_inclination c) (call_model c) (call_disk c)
                 (state r)) = state r)
  /\ (forall inclination disk1 disk2,
        disk1 <> [] ->
        let r1 := anisotropy inclination "he16" disk1 (state r) in
        let r2 := anisotropy inclination "he16" disk2 (state r1) in
        result r2 = result r1
        /\ file_reads (trace r2) = 0%nat
        /\ state r2 = state r1).
Proof.
  intros Hdisk r. split; [| split].
  - unfold r. now rewrite run_reads.
  - intros c f Hf. exact (proj1 (anisotropy_cached f c _ Hf)).
  - intros inclination disk1 disk2 Hd. now apply anisotropy_he16_twice.
Qed.

(** ** The sort inside [interp1d] *)

Lemma insert_perm (a : scipy.node) (l : list scipy.node) :
  Permutation (scipy.insert a l) (a :: l).
Proof.
  induction l as [| b l IH]; cbn; [reflexivity |].
  destruct (Rle_dec (fst a) (fst b)); [reflexivity |].
  rewrite IH. apply perm_swap.
Qed.

Lemma argsort_perm (l : list scipy.node) : Permutation (scipy.argsort l) l.
Proof.
  induction l as [| a l IH]; cbn; [reflexivity |].
  rewrite insert_perm. now constructor.
Qed.

Lemma insert_sorted (a : scipy.node) (l : list scipy.node) :
  StronglySorted le_x l -> StronglySorted le_x (scipy.insert a l).
Proof.
  induction 1 as [| b l Hs IH Hb]; cbn.
  - repeat constructor.
  - destruct (Rle_dec (fst a) (fst b)) as [Hab | Hab].
    + constructor; [now constructor |].
      constructor; [exact Hab |].
      eapply List.Forall_impl; [| exact Hb].
      intros c Hc. unfold le_x in *. lra.
    + constructor; [exact IH |].
      eapply Permutation_Forall; [symmetry; apply insert_perm |].
      constructor; [unfold le_x; lra | exact Hb].
Qed.

Lemma argsort_sorted (l : list scipy.node) : StronglySorted le_x (scipy.argsort l).
Proof.
  induction l as [| a l IH]; cbn; [constructor | now apply insert_sorted].
Qed.

(** Without repeated abscissae the sorted grid is strictly ascending. *)
Lemma sorted_nodup_strict (l : list scipy.node) :
  StronglySorted le_x l -> List.NoDup (map fst l) ->
  StronglySorted Rlt (map fst l).
Proof.
  induction 1 as [| a l Hs IH Ha]; cbn; intros Hnd; [constructor |].
  apply List.NoDup_cons_iff in Hnd as [Hnotin Hnd].
  constructor; [now apply IH |].
  apply List.Forall_forall. intros x Hx.
  apply List.in_map_iff in Hx as (b & <- & Hb).
  pose proof (proj1 (List.Forall_forall _ _) Ha b Hb) as Hle. unfold le_x in Hle.
  destruct (Req_dec (fst a) (fst b)) as [E | N]; [| lra].
  exfalso. apply Hnotin. rewrite E. now apply List.in_map.
Qed.

Lemma combine_columns (a : table) :
  combine (map col1 a) (stack_columns a) = map node_of a.
Proof.
  unfold stack_columns. induction a as [| r a IH]; cbn; [reflexivity |].
  now rewrite IH.
Qed.

(** What [interp1d] holds once it is built from a table. *)
Lemma init_nodes (a : table) (f : scipy.interp1d) :
  scipy.init (map col1 a) (stack_columns a) = Return f ->
  a <> [] /\ scipy.nodes f = scipy.argsort (map node_of a).
Proof.
  destruct a as [| r a]; cbn; [discriminate |].
  intros E. injection E as <-. split; [discriminate |].
  cbn. now rewrite combine_columns.
Qed.

(** ** Indexing *)

Lemma getitem_nat {A : Type} (d : A) (a : list A) (i : nat) :
  np.getitem d a (Z.of_nat i) = nth i a d.
Proof.
  unfold np.getitem.
  destruct (Z.ltb_spec (Z.of_nat i) 0) as [H | H]; [lia |].
  now rewrite Nat2Z.id.
Qed.

Lemma getitem_last {A : Type} (d : A) (a : list A) :
  a <> [] -> np.getitem d a (-1) = nth (length a - 1) a d.
Proof.
  intros Ha. unfold np.getitem. cbn [Z.ltb Z.compare].
  f_equal. destruct a; [contradiction |]. cbn [length]. lia.
Qed.

Lemma sorted_nth_lt (x : list R) (i j : nat) :
  StronglySorted Rlt x -> (i < j < length x)%nat -> nth i x 0 < nth j x 0.
Proof.
  intros Hs. revert i j.
  induction Hs as [| a x Hs IH Ha]; intros i j [Hij Hj]; cbn in Hj; [lia |].
  destruct j as [| j]; [lia |].
  destruct i as [| i]; cbn.
  - apply (proj1 (List.Forall_forall _ _) Ha). apply List.nth_In. lia.
  - apply IH. lia.
Qed.

Lemma searchsorted_nth (x : list R) (k : nat) :
  StronglySorted Rlt x -> (k < length x)%nat ->
  np.searchsorted x (nth k x 0) = k.
Proof.
  intros Hs. revert k.
  induction Hs as [| a x Hs IH Ha]; intros k Hk; cbn in Hk; [lia |].
  destruct k as [| k]; cbn.
  - destruct (Rlt_dec a a) as [H | _]; [lra | reflexivity].
  - assert (Hlt : a < nth k x 0).
    { apply (proj1 (List.Forall_forall _ _) Ha). apply List.nth_In. lia. }
    destruct (Rlt_dec a (nth k x 0)) as [_ | N]; [| contradiction].
    f_equal. apply IH. lia.
Qed.

(** ** The interpolation at a node *)

Lemma lerp_at_lo (x_lo x_hi y_lo y_hi : R) :
  x_lo <> x_hi -> scipy.lerp x_lo x_hi y_lo y_hi x_lo = np.Fin y_lo.
Proof.
  intros Hx. unfold scipy.lerp.
  cbn [np.sub np.neg np.add]. rewrite div_fin by lra.
  cbn [np.mul np.add]. f_equal. field. lra.
Qed.

Lemma lerp_at_hi (x_lo x_hi y_lo y_hi : R) :
  x_lo <> x_hi -> scipy.lerp x_lo x_hi y_lo y_hi x_hi = np.Fin y_hi.
Proof.
  intros Hx. unfold scipy.lerp.
  cbn [np.sub np.neg np.add]. rewrite div_fin by lra.
  cbn [np.mul np.add]. f_equal. field. lra.
Qed.

Lemma call_at_node (ns : list scipy.node) (x a b c : R) :
  StronglySorted Rlt (map fst ns) ->
  (2 <= length ns)%nat ->
  In (x, (a, b, c)) ns ->
  scipy.call (scipy.mkInterp1d ns) x = Return (np.Fin a, np.Fin b, np.Fin c).
Proof.
  intros Hs Hlen Hin.
  destruct (List.In_nth ns _ (0, (0, 0, 0)) Hin) as (k & Hk & Hnth).
  assert (Hn : length (map fst ns) = length ns) by apply List.length_map.
  assert (Hx : forall i, nth i (map fst ns) 0 = fst (nth i ns (0, (0, 0, 0)))).
  { intros i. apply (List.map_nth fst ns (0, (0, 0, 0))). }
  assert (Hy : forall i, nth i (map snd ns) (0, 0, 0) = snd (nth i ns (0, (0, 0, 0)))).
  { intros i. apply (List.map_nth snd ns (0, (0, 0, 0))). }
  assert (Hxk : nth k (map fst ns) 0 = x) by now rewrite Hx, Hnth.
  assert (Hyk : nth k (map snd ns) (0, 0, 0) = (a, b, c)) by now rewrite Hy, Hnth.
  assert (Hss : np.searchsorted (map fst ns) x = k).
  { rewrite <- Hxk. apply searchsorted_nth; [exact Hs | lia]. }
  assert (Hne : map fst ns <> []) by (destruct ns; [cbn in Hlen; lia | discriminate]).
  unfold scipy.call, scipy.call_linear, scipy.xs, scipy.ys. cbn [scipy.nodes].
  (* the bounds check passes *)
  rewrite (getitem_nat 0 _ 0 : np.getitem 0 (map fst ns) 0 = _).
  rewrite (getitem_last 0 _ Hne), Hn.
  assert (Hfirst : nth 0 (map fst ns) 0 <= x).
  { destruct k as [| k]; [lra |].
    rewrite <- Hxk. left. apply sorted_nth_lt; [exact Hs | lia]. }
  assert (Hlast : x <= nth (length ns - 1) (map fst ns) 0).
  { destruct (Nat.eq_dec k (length ns - 1)%nat) as [-> | Hklast]; [lra |].
    rewrite <- Hxk at 1. left. apply sorted_nth_lt; [exact Hs | lia]. }
  destruct (Rlt_dec x (nth 0 (map fst ns) 0)) as [H | _]; [lra |].
  destruct (Rlt_dec (nth (length ns - 1) (map fst ns) 0) x) as [H | _]; [lra |].
  (* the bracketing nodes *)
  rewrite Hss.
  assert (Hclip : np.clip (Z.of_nat k) 1 (Z.of_nat (length ns) - 1)
                  = Z.of_nat (Nat.max k 1)) by (unfold np.clip; lia).
  rewrite Hclip.
  replace (Z.of_nat (Nat.max k 1) - 1)%Z with (Z.of_nat (Nat.max k 1 - 1)) by lia.
  rewrite !getitem_nat.
  assert (Hlohi : nth (Nat.max k 1 - 1) (map fst ns) 0 < nth (Nat.max k 1) (map fst ns) 0).
  { apply sorted_nth_lt; [exact Hs | lia]. }
  destruct k as [| k].
  - (* the first node: the query is the low end of the first interval *)
    cbn [Nat.max Nat.sub] in *. rewrite Hyk.
    destruct (nth 1 (map snd ns) (0, 0, 0)) as [[a_hi b_hi] c_hi].
    rewrite Hxk in *. rewrite !lerp_at_lo by lra. reflexivity.
  - (* any later node: the query is the high end of its interval *)
    replace (Nat.max (S k) 1) with (S k) in * by lia.
    replace (S k - 1)%nat with k in * by lia. rewrite Hyk.
    destruct (nth k (map snd ns) (0, 0, 0)) as [[a_lo b_lo] c_lo].
    rewrite Hxk in *. rewrite !lerp_at_hi by lra. reflexivity.
Qed.

(** A table of a single row is accepted by [interp1d], but its only
    interval has no width: the slope is 0/0 and the node itself
    interpolates to NaN.  Hence the two rows asked for below. *)
Lemma one_node_interpolates_to_nan (x a b c : R) :
  scipy.call (scipy.mkInterp1d [(x, (a, b, c))]) x
  = Return (np.NaN, np.NaN, np.NaN).
Proof.
  assert (Hnan : forall y, scipy.lerp x x y y x = np.NaN).
  { intros y. unfold scipy.lerp. cbn [np.sub np.neg np.add np.div].
    destruct (Req_dec_T (x + - x) 0) as [_ | N]; [| exfalso; apply N; ring].
    unfold np.Rsign.
    destruct (total_order_T (y + - y) 0) as [[H | H] | H]; try lra.
    reflexivity. }
  unfold scipy.call, scipy.call_linear, scipy.xs, scipy.ys.
  cbn [scipy.nodes map fst snd length np.searchsorted].
  destruct (Rlt_dec x x) as [H | _]; [lra |].
  change (np.clip (Z.of_nat 0) 1 (Z.of_nat 1 - 1)) with 0%Z.
  change (0 - 1)%Z with (-1)%Z.
  change (np.getitem 0 [x] 0) with x.
  change (np.getitem 0 [x] (-1)) with x.
  change (np.getitem (0, 0, 0) [(a, b, c)] 0) with (a, b, c).
  change (np.getitem (0, 0, 0) [(a, b, c)] (-1)) with (a, b, c).
  destruct (Rlt_dec x x) as [H | _]; [lra |].
  now rewrite !Hnan.
Qed.

(** ** The tabulated model *)

Lemma he16_eval (t disk : table) (g : globals) (inclination : angle_arg) :
  serves t disk g ->
  result (anisotropy inclination "he16" disk g)
  = match scipy.init (map col1 t) (stack_columns t) with
    | Raise e => Raise e
    | Return f =>
        match scipy.call f (degrees_of inclination) with
        | Raise e => Raise e
        | Return (inv_xi_d, inv_xi_r, inv_xi_p) =>
            Return (PyFloat (np.div (np.Fin 1) (np.add inv_xi_d inv_xi_r)),
                    PyFloat (np.div (np.Fin 1) inv_xi_p))
        end
    end.
Proof.
  unfold serves, anisotropy. cbn [String.eqb Ascii.eqb Bool.eqb].
  destruct (anisotropy_he16 g) as [f |].
  - intros ->.
    destruct inclination as [x | q]; cbn [degrees_of u.to u.value u.unit_of];
      destruct (scipy.call f _) as [[[a b] c] | e]; reflexivity.
  - intros ->.
    destruct (scipy.init (map col1 t) (stack_columns t)) as [f | e];
      [| destruct inclination; reflexivity].
    destruct inclination as [x | q]; cbn [degrees_of u.to u.value u.unit_of];
      destruct (scipy.call f _) as [[[a b] c] | e]; reflexivity.
Qed.

Lemma grid_of_table (t : table) :
  map fst (scipy.argsort (map node_of t)) ≡ₚ map col1 t.
Proof.
  rewrite argsort_perm, List.map_map. reflexivity.
Qed.

(** In exact arithmetic: at a grid point of the reference table (a table
    of at least two rows with distinct inclinations), 'he16' returns
    1/(inv_xi_disk + inv_xi_reflection) and 1/inv_xi_persistent of that
    row.  On doubles the interpolation can miss the values of the row in
    the last digits; that is stated further down. *)
Lemma exact_he16_at_grid_point
    (t disk : table) (g : globals) (inclination : angle_arg) (r : row) :
  serves t disk g ->
  List.NoDup (map col1 t) ->
  (2 <= length t)%nat ->
  In r t ->
  degrees_of inclination = col1 r ->
  result (anisotropy inclination "he16" disk g)
  = Return (PyFloat (np.div (np.Fin 1) (np.Fin (col2 r + col3 r))),
            PyFloat (np.div (np.Fin 1) (np.Fin (col4 r)))).
Proof.
  intros Hserves Hnd Hlen Hin Hdeg.
  rewrite (he16_eval t) by exact Hserves.
  assert (Hne : t <> []) by (destruct t; [cbn in Hlen; lia | discriminate]).
  destruct (init_nonempty t Hne) as [f Hinit]. rewrite Hinit.
  destruct (init_nodes t f Hinit) as [_ Hnodes].
  destruct f as [ns]. cbn [scipy.nodes] in Hnodes. subst ns.
  rewrite Hdeg.
  rewrite (call_at_node _ (col1 r) (col2 r) (col3 r) (col4 r)); [reflexivity | | |].
  - apply sorted_nodup_strict; [apply argsort_sorted |].
    eapply Permutation_NoDup; [symmetry; apply grid_of_table | exact Hnd].
  - rewrite (Permutation_length (argsort_perm _)), List.length_map. exact Hlen.
  - eapply Permutation_in; [symmetry; apply argsort_perm |].
    change (In (node_of r) (map node_of t)). now apply List.in_map.
Qed.

(** C6.  Outside the angular domain of the reference table, that is for
    a query below every tabulated inclination or above every one, the
    tabulated model fails: the call raises a ValueError.  It neither
    clamps nor returns an extrapolated value. *)
Theorem anisotropy_he16_out_of_domain
    (t disk : table) (g : globals) (inclination : angle_arg) :
  serves t disk g ->
  (forall r, In r t -> degrees_of inclination < col1 r)
  \/ (forall r, In r t -> col1 r < degrees_of inclination) ->
  exists msg,
    result (anisotropy inclination "he16" disk g) = Raise (ValueError msg).
Proof.
  intros Hserves Hout.
  rewrite (he16_eval t) by exact Hserves.
  destruct (scipy.init (map col1 t) (stack_columns t)) as [f | [msg]] eqn:Hinit;
    [| now exists msg].
  destruct (init_nodes t f Hinit) as [Hne Hnodes].
  assert (Hgrid : forall x, In x (scipy.xs f) -> exists r, In r t /\ col1 r = x).
  { intros x Hx. unfold scipy.xs in Hx. rewrite Hnodes in Hx.
    apply (Permutation_in _ (grid_of_table t)) in Hx.
    apply List.in_map_iff in Hx as (r & Hr & Hin). eauto. }
  assert (Hxs : scipy.xs f <> []).
  { intros E. unfold scipy.xs in E. rewrite Hnodes in E.
    pose proof (grid_of_table t) as P. rewrite E in P.
    apply Permutation.Permutation_nil in P.
    apply List.map_eq_nil in P. contradiction. }
  unfold scipy.call.
  rewrite (getitem_nat 0 _ 0 : np.getitem 0 (scipy.xs f) 0 = _).
  rewrite (getitem_last 0 _ Hxs).
  assert (Hlen : (0 < length (scipy.xs f))%nat).
  { destruct (scipy.xs f); [contradiction | cbn; lia]. }
  destruct (Hgrid (nth 0 (scipy.xs f) 0)) as (r0 & Hr0 & E0);
    [apply List.nth_In; lia |].
  destruct (Hgrid (nth (length (scipy.xs f) - 1) (scipy.xs f) 0)) as (r1 & Hr1 & E1);
    [apply List.nth_In; lia |].
  destruct (Rlt_dec (degrees_of inclination) (nth 0 (scipy.xs f) 0)) as [_ | Hlo];
    [eauto |].
  destruct (Rlt_dec (nth (length (scipy.xs f) - 1) (scipy.xs f) 0)
              (degrees_of inclination)) as [_ | Hhi]; [eauto |].
  exfalso. destruct Hout as [Hbelow | Habove].
  - apply Hlo. rewrite <- E0. now apply Hbelow.
  - apply Hhi. rewrite <- E1. now apply Habove.
Qed.

Lemma anisotropy_he16_out_of_domain_witness :
  exists msg,
    result (anisotropy (deg 120) "he16" two_rows fresh_globals)
    = Raise (ValueError msg).
Proof.
  refine (anisotropy_he16_out_of_domain two_rows two_rows fresh_globals
            (deg 120) _ _).
  - reflexivity.
  - right. intros r [<- | [<- | []]]; cbn; lra.
Defined.

(** ** Walker positions *)

Lemma copy_fresh (p : ref) (l : list R) (h : gmap nat (list R)) :
  h !! p = Some l ->
  pylist.copy p h = Some (fresh (dom h), <[fresh (dom h) := l]> h)
  /\ h !! fresh (dom h) = None.
Proof.
  intros Hp. unfold pylist.copy. rewrite Hp. split; [reflexivity |].
  apply not_elem_of_dom. apply is_fresh.
Qed.

(** The loop [for i in range(n): params.append(tshift)]. *)
Lemma append_loop {A : Type} (p : ref) (v : R) (iters : list A) :
  forall (l : list R) (h : gmap nat (list R)),
    h !! p = Some l ->
    fold_left (fun h _ => pylist.append p v h) iters h
    = <[p := l ++ repeat v (length iters)]> h.
Proof.
  induction iters as [| i iters IH]; intros l h Hp; cbn [fold_left length repeat].
  - rewrite List.app_nil_r. symmetry. now apply insert_id.
  - assert (Happ : pylist.append p v h = <[p := l ++ [v]]> h)
      by (unfold pylist.append; now rewrite Hp).
    rewrite Happ, (IH (l ++ [v])) by apply lookup_insert_eq.
    rewrite insert_insert_eq, <- List.app_assoc. reflexivity.
Qed.

Lemma randn_length (noise : nat -> nat -> R) (w ndim : nat) :
  length (randn noise w ndim) = ndim.
Proof. unfold randn. now rewrite List.length_map, List.length_seq. Qed.

Lemma perturb_length (mag : R) (params noise : list R) :
  length noise = length params -> length (perturb mag params noise) = length params.
Proof. intros E. unfold perturb. rewrite length_zip_with. lia. Qed.

(** The time-shift block of a walker: entry [k] is drawn with sample
    [s + k]. *)
Lemma perturb_repeat (mag v : R) (g : nat -> R) (n : nat) :
  forall s,
    perturb mag (repeat v n) (map g (seq s n))
    = map (fun k => v * (1 + mag * g (s + k)%nat)) (seq 0 n).
Proof.
  unfold perturb. induction n as [| n IH]; intros s; cbn; [reflexivity |].
  rewrite Nat.add_0_r. f_equal.
  rewrite IH, <- List.seq_shift, List.map_map.
  apply List.map_ext. intros k. now rewrite Nat.add_succ_r.
Qed.

Lemma perturb_app (mag : R) (l1 l2 : list R) (g : nat -> R) :
  perturb mag (l1 ++ l2) (map g (seq 0 (length l1 + length l2)))
  = perturb mag l1 (map g (seq 0 (length l1)))
    ++ perturb mag l2 (map g (seq (length l1) (length l2))).
Proof.
  unfold perturb. rewrite List.seq_app, List.map_app. cbn [Nat.add].
  apply zip_with_app. now rewrite List.length_map, List.length_seq.
Qed.

Lemma ctools_setup_positions_eval {Burst : Type} (obs : list Burst)
    (nwalkers : nat) (params0 : option ref) (tshift mag : R)
    (noise : nat -> nat -> R) (h : gmap nat (list R)) (l : list R) :
  h !! default ctools.params0_default params0 = Some l ->
  ctools.setup_positions obs nwalkers params0 tshift mag noise h
  = Some (walkers mag noise nwalkers l tshift (length obs),
          <[fresh (dom h) := l ++ repeat tshift (length obs)]> h).
Proof.
  intros Hp. unfold ctools.setup_positions.
  destruct (copy_fresh _ _ _ Hp) as [-> Hfresh].
  rewrite (append_loop _ _ _ l) by apply lookup_insert_eq.
  rewrite insert_insert_eq, List.length_seq.
  unfold pylist.len. rewrite lookup_insert_eq.
  rewrite List.length_app, List.repeat_length. reflexivity.
Qed.

Lemma pytools_setup_positions_eval
    (get_pos : string -> gmap nat (list R) -> ref * gmap nat (list R))
    (get_n_epochs : string -> nat)
    (source : string) (nwalkers : nat) (params : option ref)
    (n_epochs : option nat) (tshift mag : R) (noise : nat -> nat -> R)
    (h : gmap nat (list R)) (l : list R) :
  let ph := match params with None => get_pos source h | Some p => (p, h) end in
  let n := match n_epochs with None => get_n_epochs source | Some n => n end in
  ph.2 !! ph.1 = Some l ->
  pytools_ctools.setup_positions get_pos get_n_epochs source nwalkers params
    n_epochs tshift mag noise h
  = Some (walkers mag noise nwalkers l tshift n,
          <[ph.1 := l ++ repeat tshift n]> ph.2).
Proof.
  intros ph n Hp. unfold pytools_ctools.setup_positions.
  fold ph. fold n. destruct ph as [p h1]. cbn [fst snd] in *.
  rewrite (append_loop _ _ _ l) by exact Hp.
  rewrite List.length_seq.
  unfold pylist.len. rewrite lookup_insert_eq.
  rewrite List.length_app, List.repeat_length. reflexivity.
Qed.

Lemma walkers_length mag noise nwalkers l tshift n :
  length (walkers mag noise nwalkers l tshift n) = nwalkers.
Proof. unfold walkers. now rewrite List.length_map, List.length_seq. Qed.

Lemma walkers_nth mag noise nwalkers l tshift n w :
  (w < nwalkers)%nat ->
  nth w (walkers mag noise nwalkers l tshift n) []
  = perturb mag (l ++ repeat tshift n) (randn noise w (length l + n)).
Proof.
  intros Hw. unfold walkers.
  rewrite (List.nth_indep _ [] (perturb mag (l ++ repeat tshift n)
                                  (randn noise 0 (length l + n))))
    by (rewrite List.length_map, List.length_seq; exact Hw).
  rewrite (List.map_nth (fun i => perturb mag (l ++ repeat tshift n)
                                    (randn noise i (length l + n)))).
  now rewrite List.seq_nth.
Qed.

(** A walker around a three-parameter guess. *)
Lemma walker_layout (mag d i z tshift : R) (noise : nat -> nat -> R) (w n : nat) :
  perturb mag ([d; i; z] ++ repeat tshift n) (randn noise w (3 + n))
  = [d * (1 + mag * noise w 0%nat);
     i * (1 + mag * noise w 1%nat);
     z * (1 + mag * noise w 2%nat)]
    ++ map (fun k => tshift * (1 + mag * noise w (3 + k)%nat)) (seq 0 n).
Proof.
  unfold randn.
  rewrite <- (List.repeat_length tshift n) at 2.
  change 3%nat with (length [d; i; z]) at 1.
  rewrite perturb_app. cbn [length]. rewrite List.repeat_length.
  rewrite perturb_repeat. reflexivity.
Qed.

Lemma walkers_laid_out mag d i z tshift noise nwalkers n w :
  (w < nwalkers)%nat ->
  laid_out mag d i z tshift noise n
    (walkers mag noise nwalkers [d; i; z] tshift n) w.
Proof.
  intros Hw. unfold laid_out. rewrite walkers_nth by exact Hw.
  cbn [length]. rewrite walker_layout. split; [reflexivity |].
  cbn [length app]. now rewrite List.length_map, List.length_seq.
Qed.

(** C8.  Around a three-parameter guess (distance, inclination, 1+z),
    [setup_positions] returns [nwalkers] positions of dimension 3+N: the
    three perturbed parameters, then exactly one perturbed time-shift
    entry per epoch, entry k for observed/model pair k.  In
    [src/ctools.py] N is the number of observed bursts; in
    [src/pytools/ctools.py] it is [n_epochs]. *)
Theorem setup_positions_layout :
  (forall (Burst : Type) (obs : list Burst) (nwalkers : nat)
          (params0 : option ref) (tshift mag : R) (noise : nat -> nat -> R)
          (h : gmap nat (list R)) (d i z : R),
      h !! default ctools.params0_default params0 = Some [d; i; z] ->
      exists pos h',
        ctools.setup_positions obs nwalkers params0 tshift mag noise h
          = Some (pos, h')
        /\ length pos = nwalkers
        /\ forall w, (w < nwalkers)%nat ->
             laid_out mag d i z tshift noise (length obs) pos w)
  /\ (forall (get_pos : string -> gmap nat (list R) -> ref * gmap nat (list R))
             (get_n_epochs : string -> nat) (source : string) (nwalkers : nat)
             (params : option ref) (n_epochs : option nat) (tshift mag : R)
             (noise : nat -> nat -> R) (h : gmap nat (list R)) (d i z : R),
        let ph := match params with None => get_pos source h | Some p => (p, h) end in
        let n := match n_epochs with None => get_n_epochs source | Some n => n end in
        ph.2 !! ph.1 = Some [d; i; z] ->
        exists pos h',
          pytools_ctools.setup_positions get_pos get_n_epochs source nwalkers
            params n_epochs tshift mag noise h = Some (pos, h')
          /\ length pos = nwalkers
          /\ forall w, (w < nwalkers)%nat ->
               laid_out mag d i z tshift noise n pos w).
Proof.
  split.
  - intros Burst obs nwalkers params0 tshift mag noise h d i z Hp.
    rewrite (ctools_setup_positions_eval obs _ _ _ _ _ _ _ Hp).
    eexists _, _. split; [reflexivity |]. split; [apply walkers_length |].
    intros w Hw. now apply walkers_laid_out.
  - intros get_pos get_n_epochs source nwalkers params n_epochs tshift mag
      noise h d i z ph n Hp.
    rewrite (pytools_setup_positions_eval get_pos get_n_epochs source nwalkers
               params n_epochs tshift mag noise h _ Hp).
    eexists _, _. split; [reflexivity |]. split; [apply walkers_length |].
    intros w Hw. now apply walkers_laid_out.
Qed.

Lemma setup_positions_layout_witness :
  (exists pos h',
     ctools.setup_positions [tt; tt; tt] 200 None (-6.5) 0.001 (fun _ _ => 0)
       ctools.initial_store = Some (pos, h')
     /\ length pos = 200%nat
     /\ forall w, (w < 200)%nat ->
          laid_out 0.001 6.09 60 1.28 (-6.5) (fun _ _ => 0) 3 pos w)
  /\ (exists pos h',
        pytools_ctools.setup_positions (fun _ h => (0%nat, h)) (fun _ => 3%nat)
          "gs1826" 200 None None (-6.5) 0.001 (fun _ _ => 0)
          ctools.initial_store = Some (pos, h')
        /\ length pos = 200%nat
        /\ forall w, (w < 200)%nat ->
             laid_out 0.001 6.09 60 1.28 (-6.5) (fun _ _ => 0) 3 pos w).
Proof.
  split.
  - refine (proj1 setup_positions_layout unit [tt; tt; tt] 200%nat None (-6.5)
              0.001 (fun _ _ => 0) ctools.initial_store 6.09 60 1.28 _).
    apply lookup_singleton_eq.
  - refine (proj2 setup_positions_layout (fun _ h => (0%nat, h))
              (fun _ => 3%nat) "gs1826" 200%nat None None (-6.5) 0.001
              (fun _ _ => 0) ctools.initial_store 6.09 60 1.28 _).
    apply lookup_singleton_eq.
Defined.

(** C10.  [setup_positions] of [src/ctools.py] leaves the list behind
    [params0] (the caller's or the default one) as it was, and every other
    list that existed before the call: the time shifts are appended to a
    copy.  A second call with the same observations therefore produces
    positions of the same dimension as the first. *)
Theorem setup_positions_keeps_params0
    {Burst : Type} (obs : list Burst) (nwalkers : nat) (params0 : option ref)
    (tshift mag : R) (noise : nat -> nat -> R) (h : gmap nat (list R))
    (l : list R) :
  h !! default ctools.params0_default params0 = Some l ->
  exists pos h',
    ctools.setup_positions obs nwalkers params0 tshift mag noise h = Some (pos, h')
    /\ h' !! default ctools.params0_default params0 = Some l
    /\ (forall q, is_Some (h !! q) -> h' !! q = h !! q)
    /\ (forall w, (w < nwalkers)%nat ->
          length (nth w pos []) = (length l + length obs)%nat)
    /\ forall nwalkers2 tshift2 mag2 noise2,
         exists pos2 h'',
           ctools.setup_positions obs nwalkers2 params0 tshift2 mag2 noise2 h'
             = Some (pos2, h'')
           /\ forall w, (w < nwalkers2)%nat ->
                length (nth w pos2 []) = (length l + length obs)%nat.
Proof.
  intros Hp.
  assert (Hdim : forall n m t k w, (w < n)%nat ->
            length (nth w (walkers m k n l t (length obs)) [])
            = (length l + length obs)%nat).
  { intros n m t k w Hw. rewrite walkers_nth by exact Hw.
    apply eq_trans with (length (l ++ repeat t (length obs))).
    - apply perturb_length. rewrite randn_length.
      now rewrite List.length_app, List.repeat_length.
    - now rewrite List.length_app, List.repeat_length. }
  assert (Hframe : forall q, is_Some (h !! q) ->
            <[fresh (dom h) := l ++ repeat tshift (length obs)]> h !! q = h !! q).
  { intros q Hq. apply lookup_insert_ne. intros <-.
    apply (is_fresh (dom h)). now apply elem_of_dom. }
  rewrite (ctools_setup_positions_eval obs _ _ _ _ _ _ _ Hp).
  eexists _, _. split; [reflexivity |].
  assert (Hp' : <[fresh (dom h) := l ++ repeat tshift (length obs)]> h
                  !! default ctools.params0_default params0 = Some l).
  { rewrite Hframe by (rewrite Hp; eauto). exact Hp. }
  split; [exact Hp' |]. split; [exact Hframe |]. split; [now apply Hdim |].
  intros nwalkers2 tshift2 mag2 noise2.
  rewrite (ctools_setup_positions_eval obs _ _ _ _ _ _ _ Hp').
  eexists _, _. split; [reflexivity |]. now apply Hdim.
Qed.

Lemma setup_positions_keeps_params0_witness :
  exists pos h',
    ctools.setup_positions [tt; tt; tt] 200 None (-6.5) 0.001 (fun _ _ => 0)
      ctools.initial_store = Some (pos, h')
    /\ h' !! ctools.params0_default = Some [6.09; 60; 1.28].
Proof.
  destruct (setup_positions_keeps_params0 [tt; tt; tt] 200 None (-6.5) 0.001
              (fun _ _ => 0) ctools.initial_store [6.09; 60; 1.28]
              (lookup_singleton_eq _ _))
    as (pos & h' & Hcall & Hkept & _).
  exists pos, h'. split; [exact Hcall | exact Hkept].
Defined.

(** For contrast, the later [src/pytools/ctools.py] appends to the list it
    is given: a second call on the same list object finds it longer. *)
Lemma pytools_setup_positions_appends_in_place
    (get_pos : string -> gmap nat (list R) -> ref * gmap nat (list R))
    (get_n_epochs : string -> nat) (source : string) (nwalkers : nat)
    (p : ref) (n : nat) (tshift mag : R) (noise : nat -> nat -> R)
    (h : gmap nat (list R)) (l : list R) :
  h !! p = Some l ->
  exists pos h',
    pytools_ctools.setup_positions get_pos get_n_epochs source nwalkers
      (Some p) (Some n) tshift mag noise h = Some (pos, h')
    /\ h' !! p = Some (l ++ repeat tshift n).
Proof.
  intros Hp.
  rewrite (pytools_setup_positions_eval get_pos get_n_epochs source nwalkers
             (Some p) (Some n) tshift mag noise h l Hp).
  eexists _, _. split; [reflexivity |]. apply lookup_insert_eq.
Qed.

Lemma anisotropy_he16_loaded_once_witness :
  file_reads (trace (run three_calls fresh_globals)) = 1%nat.
Proof.
  refine (proj1 (anisotropy_he16_loaded_once three_calls _)).
  repeat constructor; discriminate.
Defined.

(** * Further properties *)

(** ** The analytic model over all angles *)

Lemma abs_cos_bounds (x : R) : 0 <= Rabs (cos x) <= 1.
Proof.
  split; [apply Rabs_pos |].
  apply Rabs_le. pose proof (COS_bound x). lra.
Qed.

(** X1.  Whatever the inclination, the analytic model returns a finite
    xi_burst between 2/3 and 2, and an xi_persistent that is +infinity or
    a finite value of at least 1/2. *)
Theorem anisotropy_fuji88_bounds
    (inclination : angle_arg) (disk : table) (g : globals) :
  exists xi_b xi_p,
    result (anisotropy inclination "fuji88" disk g)
      = Return (PyFloat (np.Fin xi_b), PyFloat xi_p)
    /\ 2 / 3 <= xi_b <= 2
    /\ (xi_p = np.PInf \/ exists p, xi_p = np.Fin p /\ 1 / 2 <= p).
Proof.
  destruct (fuji88_eval inclination disk g) as [out ->].
  unfold result; cbn [fst].
  set (c := Rabs (cos (degrees_of inclination * (PI / 180)))).
  pose proof (abs_cos_bounds (degrees_of inclination * (PI / 180))) as Hc.
  fold c in Hc.
  rewrite (div_fin 1 (0.5 + c)) by lra.
  eexists _, _. split; [reflexivity |]. split.
  - assert (E : 1 / (0.5 + c) * (0.5 + c) = 1) by (field; lra).
    split; apply Rmult_le_reg_r with (0.5 + c); try lra; rewrite E; lra.
  - destruct (Req_dec c 0) as [E | N].
    + left. rewrite E. apply div_by_zero. lra.
    + right. exists (0.5 / c). split; [apply div_fin; exact N |].
      assert (E : 0.5 / c * c = 0.5) by (field; lra).
      apply Rmult_le_reg_r with c; [lra |]. rewrite E. lra.
Qed.

(** X2.  Between 0 and 90 degrees both factors of the analytic model grow
    with the inclination: a source seen more edge-on has the larger
    xi_burst and the larger xi_persistent. *)
Theorem anisotropy_fuji88_monotone
    (theta1 theta2 : R) (disk : table) (g : globals) :
  0 <= theta1 -> theta1 <= theta2 -> theta2 < 90 ->
  exists b1 p1 b2 p2,
    result (anisotropy (deg theta1) "fuji88" disk g)
      = Return (PyFloat (np.Fin b1), PyFloat (np.Fin p1))
    /\ result (anisotropy (deg theta2) "fuji88" disk g)
         = Return (PyFloat (np.Fin b2), PyFloat (np.Fin p2))
    /\ b1 <= b2 /\ p1 <= p2.
Proof.
  intros H0 H12 H90. pose proof PI_RGT_0 as Hpi.
  assert (Hc1 : 0 < cos (theta1 * (PI / 180))) by (apply cos_deg_pos; lra).
  assert (Hc2 : 0 < cos (theta2 * (PI / 180))) by (apply cos_deg_pos; lra).
  assert (Hle : cos (theta2 * (PI / 180)) <= cos (theta1 * (PI / 180))).
  { apply cos_decr_1; nra. }
  destruct (fuji88_eval (deg theta1) disk g) as [out1 ->].
  destruct (fuji88_eval (deg theta2) disk g) as [out2 ->].
  unfold result; cbn [fst degrees_of deg u.to u.unit_of u.value].
  rewrite !Rabs_pos_eq by lra.
  rewrite !div_fin by lra.
  eexists _, _, _, _. split; [reflexivity |]. split; [reflexivity |]. split.
  - unfold Rdiv. rewrite !Rmult_1_l. apply Rinv_le_contravar; lra.
  - unfold Rdiv. apply Rmult_le_compat_l; [lra |].
    apply Rinv_le_contravar; lra.
Qed.

Lemma anisotropy_fuji88_monotone_witness :
  exists b1 p1 b2 p2,
    result (anisotropy (deg 30) "fuji88" [] fresh_globals)
      = Return (PyFloat (np.Fin b1), PyFloat (np.Fin p1))
    /\ result (anisotropy (deg 60) "fuji88" [] fresh_globals)
         = Return (PyFloat (np.Fin b2), PyFloat (np.Fin p2))
    /\ b1 <= b2 /\ p1 <= p2.
Proof.
  refine (anisotropy_fuji88_monotone 30 60 [] fresh_globals _ _ _); lra.
Defined.

(** ** The tabulated model inside its domain *)

Lemma sorted_le_fst (l : list scipy.node) :
  StronglySorted le_x l -> StronglySorted Rle (map fst l).
Proof.
  induction 1 as [| a l Hs IH Ha]; cbn; constructor; [exact IH |].
  apply List.Forall_forall. intros x Hx.
  apply List.in_map_iff in Hx as (b & <- & Hb).
  exact (proj1 (List.Forall_forall _ _) Ha b Hb).
Qed.

Lemma sorted_nth_le (x : list R) (i j : nat) :
  StronglySorted Rle x -> (i <= j < length x)%nat -> nth i x 0 <= nth j x 0.
Proof.
  intros Hs. revert i j.
  induction Hs as [| a x Hs IH Ha]; intros i j [Hij Hj]; cbn in Hj; [lia |].
  destruct j as [| j].
  - replace i with 0%nat by lia. lra.
  - destruct i as [| i]; cbn.
    + apply (proj1 (List.Forall_forall _ _) Ha). apply List.nth_In. lia.
    + apply IH. lia.
Qed.

(** [searchsorted] stops at the first entry that is not below [v]. *)
Lemma searchsorted_spec (x : list R) (v : R) :
  (np.searchsorted x v <= length x)%nat
  /\ (forall k, (k < np.searchsorted x v)%nat -> nth k x 0 < v)
  /\ ((np.searchsorted x v < length x)%nat ->
      v <= nth (np.searchsorted x v) x 0).
Proof.
  induction x as [| a x (IHlen & IHbelow & IHat)]; cbn.
  - split; [lia |]. split; intros; lia.
  - destruct (Rlt_dec a v) as [Hav | Hav].
    + split; [lia |]. split.
      * intros [| k] Hk; [exact Hav | apply IHbelow; lia].
      * intros Hm. apply IHat. lia.
    + split; [lia |]. split; [intros k Hk; lia |]. intros _. lra.
Qed.

Lemma lerp_fin (x_lo x_hi y_lo y_hi x : R) :
  x_lo <> x_hi ->
  scipy.lerp x_lo x_hi y_lo y_hi x = np.Fin (line x_lo x_hi y_lo y_hi x).
Proof.
  intros Hx. unfold scipy.lerp, line.
  cbn [np.sub np.neg np.add]. rewrite div_fin by lra.
  cbn [np.mul np.add]. reflexivity.
Qed.

(** Inside the grid the interpolator returns the straight line of one
    interval [i, i+1] that holds the query: the one whose upper end is the
    first node not below the query. *)
Lemma call_in_domain (ns : list scipy.node) (x : R) :
  StronglySorted Rlt (map fst ns) ->
  (2 <= length ns)%nat ->
  nth 0 (map fst ns) 0 <= x ->
  x <= nth (length ns - 1) (map fst ns) 0 ->
  exists i,
    (S i < length ns)%nat
    /\ (nth i (map fst ns) 0 < x \/ (i = 0%nat /\ x = nth 0 (map fst ns) 0))
    /\ x <= nth (S i) (map fst ns) 0
    /\ scipy.call (scipy.mkInterp1d ns) x
       = Return (between (nth i ns (0, (0, 0, 0)))
                         (nth (S i) ns (0, (0, 0, 0))) x).
Proof.
  intros Hs Hlen Hfirst Hlast.
  assert (Hn : length (map fst ns) = length ns) by apply List.length_map.
  assert (Hx : forall i, nth i (map fst ns) 0 = fst (nth i ns (0, (0, 0, 0)))).
  { intros i. apply (List.map_nth fst ns (0, (0, 0, 0))). }
  assert (Hy : forall i, nth i (map snd ns) (0, 0, 0) = snd (nth i ns (0, (0, 0, 0)))).
  { intros i. apply (List.map_nth snd ns (0, (0, 0, 0))). }
  assert (Hne : map fst ns <> []) by (destruct ns; [cbn in Hlen; lia | discriminate]).
  destruct (searchsorted_spec (map fst ns) x) as (Hmlen & Hbelow & Hat).
  set (m := np.searchsorted (map fst ns) x) in *.
  rewrite Hn in Hmlen, Hat.
  assert (Hm : (m < length ns)%nat).
  { destruct (Nat.eq_dec m (length ns)) as [E | N]; [| lia].
    exfalso. specialize (Hbelow (length ns - 1)%nat). lapply Hbelow; [lra | lia]. }
  specialize (Hat Hm).
  exists (Nat.max m 1 - 1)%nat.
  replace (S (Nat.max m 1 - 1)) with (Nat.max m 1) by lia.
  assert (Hlohi : nth (Nat.max m 1 - 1) (map fst ns) 0 < nth (Nat.max m 1) (map fst ns) 0).
  { apply sorted_nth_lt; [exact Hs | lia]. }
  split; [lia |].
  assert (Hbracket :
    (nth (Nat.max m 1 - 1) (map fst ns) 0 < x
     \/ ((Nat.max m 1 - 1)%nat = 0%nat /\ x = nth 0 (map fst ns) 0))
    /\ x <= nth (Nat.max m 1) (map fst ns) 0).
  { destruct m as [| m'].
    - cbn [Nat.max Nat.sub] in *. split; [right; split; [reflexivity | lra] | lra].
    - replace (Nat.max (S m') 1) with (S m') in * by lia.
      split; [left; apply Hbelow; lia | exact Hat]. }
  destruct Hbracket as [Hlo Hhi]. split; [exact Hlo |]. split; [exact Hhi |].
  unfold scipy.call, scipy.call_linear, scipy.xs, scipy.ys. cbn [scipy.nodes].
  rewrite (getitem_nat 0 _ 0 : np.getitem 0 (map fst ns) 0 = _).
  rewrite (getitem_last 0 _ Hne), Hn.
  destruct (Rlt_dec x (nth 0 (map fst ns) 0)) as [H | _]; [lra |].
  destruct (Rlt_dec (nth (length ns - 1) (map fst ns) 0) x) as [H | _]; [lra |].
  fold m.
  assert (Hclip : np.clip (Z.of_nat m) 1 (Z.of_nat (length ns) - 1)
                  = Z.of_nat (Nat.max m 1)) by (unfold np.clip; lia).
  rewrite Hclip.
  replace (Z.of_nat (Nat.max m 1) - 1)%Z with (Z.of_nat (Nat.max m 1 - 1)) by lia.
  rewrite !getitem_nat, !Hy.
  rewrite !Hx in Hlohi |- *.
  destruct (nth (Nat.max m 1 - 1) ns (0, (0, 0, 0))) as [x_lo [[a_lo b_lo] c_lo]].
  destruct (nth (Nat.max m 1) ns (0, (0, 0, 0))) as [x_hi [[a_hi b_hi] c_hi]].
  cbn [fst snd between] in *.
  rewrite !lerp_fin by lra. reflexivity.
Qed.

Lemma sorted_nth_lt_inv (x : list R) (i j : nat) :
  StronglySorted Rlt x -> (i < length x)%nat -> (j < length x)%nat ->
  nth i x 0 < nth j x 0 -> (i < j)%nat.
Proof.
  intros Hs Hi Hj Hlt.
  destruct (Nat.lt_trichotomy i j) as [H | [-> | H]]; [exact H | lra |].
  pose proof (sorted_nth_lt x j i Hs (conj H Hi)). lra.
Qed.



(** The grid that [interp1d] holds for a table. *)
Lemma grid_facts (t : table) (f : scipy.interp1d) :
  scipy.init (map col1 t) (stack_columns t) = Return f ->
  length (scipy.nodes f) = length t
  /\ StronglySorted Rle (map fst (scipy.nodes f))
  /\ (forall r, In r t -> In (node_of r) (scipy.nodes f))
  /\ (forall k, (k < length t)%nat ->
        exists r, In r t /\ nth k (scipy.nodes f) (0, (0, 0, 0)) = node_of r)
  /\ (List.NoDup (map col1 t) -> StronglySorted Rlt (map fst (scipy.nodes f))).
Proof.
  intros Hinit. destruct (init_nodes t f Hinit) as [_ ->].
  assert (Hlen : length (scipy.argsort (map node_of t)) = length t).
  { now rewrite (Permutation_length (argsort_perm _)), List.length_map. }
  split; [exact Hlen |].
  split; [apply sorted_le_fst, argsort_sorted |].
  split; [| split].
  - intros r Hr. eapply Permutation_in; [symmetry; apply argsort_perm |].
    now apply List.in_map.
  - intros k Hk.
    assert (Hin : In (nth k (scipy.argsort (map node_of t)) (0, (0, 0, 0)))
                     (map node_of t)).
    { eapply Permutation_in; [apply argsort_perm |]. apply List.nth_In. lia. }
    apply List.in_map_iff in Hin as (r & E & Hr). eauto.
  - intros Hnd. apply sorted_nodup_strict; [apply argsort_sorted |].
    eapply Permutation_NoDup; [symmetry; apply grid_of_table | exact Hnd].
Qed.

(** Every tabulated inclination lies between the first and the last node. *)
Lemma grid_bounds (t : table) (f : scipy.interp1d) (r : row) :
  scipy.init (map col1 t) (stack_columns t) = Return f ->
  In r t ->
  nth 0 (scipy.xs f) 0 <= col1 r
  /\ col1 r <= nth (length (scipy.nodes f) - 1) (scipy.xs f) 0.
Proof.
  intros Hinit Hr.
  destruct (grid_facts t f Hinit) as (Hlen & Hs & Hin & _).
  destruct (List.In_nth _ _ (0, (0, 0, 0)) (Hin r Hr)) as (k & Hk & Hnth).
  assert (E : nth k (scipy.xs f) 0 = col1 r).
  { unfold scipy.xs.
    rewrite (List.map_nth fst (scipy.nodes f) (0, (0, 0, 0))), Hnth.
    reflexivity. }
  assert (Hn : length (scipy.xs f) = length (scipy.nodes f))
    by apply List.length_map.
  rewrite <- E. split; apply sorted_nth_le; try exact Hs; fold (scipy.xs f); lia.
Qed.

(** X4.  Inside the angular domain of the table, its two ends included,
    the tabulated model does not fail: whenever some tabulated
    inclination is at most the query and some is at least the query, the
    call returns a pair of numbers. *)
Theorem anisotropy_he16_in_domain
    (t disk : table) (g : globals) (inclination : angle_arg) (r_lo r_hi : row) :
  serves t disk g ->
  In r_lo t -> col1 r_lo <= degrees_of inclination ->
  In r_hi t -> degrees_of inclination <= col1 r_hi ->
  exists xi_b xi_p,
    result (anisotropy inclination "he16" disk g)
    = Return (PyFloat xi_b, PyFloat xi_p).
Proof.
  intros Hserves Hlo Hxlo Hhi Hxhi.
  rewrite (he16_eval t) by exact Hserves.
  assert (Hne : t <> []) by (intros ->; destruct Hlo).
  destruct (init_nonempty t Hne) as [f Hinit]. rewrite Hinit.
  destruct (grid_bounds t f r_lo Hinit Hlo) as [Hfirst _].
  destruct (grid_bounds t f r_hi Hinit Hhi) as [_ Hlast].
  assert (Hxs : scipy.xs f <> []).
  { unfold scipy.xs. destruct (grid_facts t f Hinit) as (Hlen & _).
    destruct (scipy.nodes f); [| discriminate].
    destruct t; [contradiction | discriminate Hlen]. }
  unfold scipy.call.
  rewrite (getitem_nat 0 _ 0 : np.getitem 0 (scipy.xs f) 0 = _).
  rewrite (getitem_last 0 _ Hxs).
  replace (length (scipy.xs f)) with (length (scipy.nodes f))
    by (symmetry; apply List.length_map).
  destruct (Rlt_dec (degrees_of inclination) (nth 0 (scipy.xs f) 0)) as [H | _];
    [lra |].
  destruct (Rlt_dec (nth (length (scipy.nodes f) - 1) (scipy.xs f) 0)
              (degrees_of inclination)) as [H | _]; [lra |].
  destruct (scipy.call_linear f (degrees_of inclination)) as [[a b] c].
  eauto.
Qed.

Lemma anisotropy_he16_in_domain_witness :
  exists xi_b xi_p,
    result (anisotropy (deg 45) "he16" two_rows fresh_globals)
    = Return (PyFloat xi_b, PyFloat xi_p).
Proof.
  refine (anisotropy_he16_in_domain two_rows two_rows fresh_globals (deg 45)
            (mkRow 0 1.5 0.5 2) (mkRow 90 0 0.25 0.5) _ _ _ _ _).
  - reflexivity.
  - cbn. left. reflexivity.
  - cbn. lra.
  - cbn. right. left. reflexivity.
  - cbn. lra.
Defined.

(** The interval that the interpolator picks, in terms of the table: two
    rows next to each other in the sorted grid, with the query between
    them. *)
Lemma he16_interval (t : table) (f : scipy.interp1d) (x : R) (r_min r_max : row) :
  scipy.init (map col1 t) (stack_columns t) = Return f ->
  List.NoDup (map col1 t) ->
  (2 <= length t)%nat ->
  In r_min t -> col1 r_min <= x ->
  In r_max t -> x <= col1 r_max ->
  exists lo hi,
    In lo t /\ In hi t
    /\ col1 lo < col1 hi
    /\ (forall r, In r t -> ~ (col1 lo < col1 r < col1 hi))
    /\ (col1 lo < x \/ (x = col1 lo /\ forall r, In r t -> col1 lo <= col1 r))
    /\ x <= col1 hi
    /\ scipy.call f x = Return (between (node_of lo) (node_of hi) x).
Proof.
  intros Hinit Hnd Hlen Hmin Hxmin Hmax Hxmax.
  destruct (grid_facts t f Hinit) as (Hn & _ & Hin & Hrow & Hstrict).
  specialize (Hstrict Hnd).
  pose proof (fun r Hr => proj1 (grid_bounds t f r Hinit Hr)) as Hfirst.
  destruct (grid_bounds t f r_max Hinit Hmax) as [_ Hlast].
  destruct f as [ns]. unfold scipy.xs in *. cbn [scipy.nodes] in *.
  assert (Hnx : length (map fst ns) = length ns) by apply List.length_map.
  assert (Hx : forall k, nth k (map fst ns) 0 = fst (nth k ns (0, (0, 0, 0)))).
  { intros k. apply (List.map_nth fst ns (0, (0, 0, 0))). }
  destruct (call_in_domain ns x Hstrict) as (i & Hi & Hlo & Hhi & Hcall);
    [lia | specialize (Hfirst r_min Hmin); lra | lra |].
  destruct (Hrow i) as (lo & Hinlo & Elo); [lia |].
  destruct (Hrow (S i)) as (hi & Hinhi & Ehi); [lia |].
  assert (Hxi : nth i (map fst ns) 0 = col1 lo) by (now rewrite Hx, Elo).
  assert (Hxsi : nth (S i) (map fst ns) 0 = col1 hi) by (now rewrite Hx, Ehi).
  assert (Hlt : nth i (map fst ns) 0 < nth (S i) (map fst ns) 0).
  { apply sorted_nth_lt; [exact Hstrict | lia]. }
  exists lo, hi.
  split; [exact Hinlo |]. split; [exact Hinhi |]. split; [lra |].
  split; [| split; [| split]].
  - intros r Hr [H1 H2].
    destruct (List.In_nth _ _ (0, (0, 0, 0)) (Hin r Hr)) as (p & Hp & Ep).
    assert (Hxp : nth p (map fst ns) 0 = col1 r) by (now rewrite Hx, Ep).
    assert (i < p)%nat
      by (apply (sorted_nth_lt_inv (map fst ns)); try exact Hstrict; lia || lra).
    assert (p < S i)%nat
      by (apply (sorted_nth_lt_inv (map fst ns)); try exact Hstrict; lia || lra).
    lia.
  - destruct Hlo as [Hlo | [-> Hlo]]; [left; lra | right].
    split; [lra |]. intros r Hr. rewrite <- Hxi. now apply Hfirst.
  - lra.
  - rewrite Hcall, Elo, Ehi. reflexivity.
Qed.

Lemma row_of_inclination (t : table) (r r' : row) :
  List.NoDup (map col1 t) -> In r t -> In r' t -> col1 r = col1 r' -> r = r'.
Proof.
  intros Hnd Hr Hr' E.
  destruct (List.In_nth _ _ (mkRow 0 0 0 0) Hr) as (k & Hk & <-).
  destruct (List.In_nth _ _ (mkRow 0 0 0 0) Hr') as (k' & Hk' & <-).
  f_equal.
  apply (proj1 (List.NoDup_nth (map col1 t) 0) Hnd);
    rewrite ?List.length_map; try assumption.
  change 0 with (col1 (mkRow 0 0 0 0)) at 1 2.
  now rewrite !List.map_nth.
Qed.

(** X5.  Between two neighbouring grid points the tabulated model is the
    straight line through them, taken on the inverse factors: for two rows
    with no tabulated inclination strictly between theirs and a query
    after the lower and up to the upper one, the three inverse factors are
    interpolated linearly and then inverted. *)
Theorem anisotropy_he16_between_neighbours
    (t disk : table) (g : globals) (inclination : angle_arg) (r_lo r_hi : row) :
  serves t disk g ->
  List.NoDup (map col1 t) ->
  In r_lo t -> In r_hi t ->
  (forall r, In r t -> ~ (col1 r_lo < col1 r < col1 r_hi)) ->
  col1 r_lo < degrees_of inclination <= col1 r_hi ->
  let at_query c :=
    line (col1 r_lo) (col1 r_hi) (c r_lo) (c r_hi) (degrees_of inclination) in
  result (anisotropy inclination "he16" disk g)
  = Return (PyFloat (np.div (np.Fin 1) (np.Fin (at_query col2 + at_query col3))),
            PyFloat (np.div (np.Fin 1) (np.Fin (at_query col4)))).
Proof.
  intros Hserves Hnd Hlo Hhi Hadj [Hxlo Hxhi] at_query.
  rewrite (he16_eval t) by exact Hserves.
  assert (Hlen : (2 <= length t)%nat).
  { destruct t as [| a [| b t']]; cbn; try lia; [destruct Hlo |].
    destruct Hlo as [<- | []]. destruct Hhi as [<- | []]. lra. }
  assert (Hne : t <> []) by (intros ->; destruct Hlo).
  destruct (init_nonempty t Hne) as [f Hinit]. rewrite Hinit.
  destruct (he16_interval t f (degrees_of inclination) r_lo r_hi Hinit Hnd Hlen)
    as (lo & hi & Hinlo & Hinhi & Hlt & Hnext & Hbelow & Habove & ->);
    [exact Hlo | lra | exact Hhi | exact Hxhi |].
  assert (Hbelow' : col1 lo < degrees_of inclination).
  { destruct Hbelow as [H | [E Hmin]]; [exact H |].
    specialize (Hmin r_lo Hlo). lra. }
  assert (Elo : lo = r_lo).
  { apply (row_of_inclination t); try assumption.
    destruct (Rtotal_order (col1 lo) (col1 r_lo)) as [H | [H | H]]; [| exact H |].
    - exfalso. apply (Hnext r_lo Hlo). lra.
    - exfalso. apply (Hadj lo Hinlo). lra. }
  subst lo.
  assert (Ehi : hi = r_hi).
  { apply (row_of_inclination t); try assumption.
    destruct (Rtotal_order (col1 hi) (col1 r_hi)) as [H | [H | H]]; [| exact H |].
    - exfalso. apply (Hadj hi Hinhi). lra.
    - exfalso. apply (Hnext r_hi Hhi). lra. }
  subst hi.
  unfold between, node_of. cbn [np.add]. reflexivity.
Qed.

Lemma anisotropy_he16_between_neighbours_witness :
  result (anisotropy (deg 45) "he16" two_rows fresh_globals)
  = Return (PyFloat (np.div (np.Fin 1)
                       (np.Fin (line 0 90 1.5 0 45 + line 0 90 0.5 0.25 45))),
            PyFloat (np.div (np.Fin 1) (np.Fin (line 0 90 2 0.5 45)))).
Proof.
  refine (anisotropy_he16_between_neighbours two_rows two_rows fresh_globals
            (deg 45) (mkRow 0 1.5 0.5 2) (mkRow 90 0 0.25 0.5) _ _ _ _ _ _).
  - reflexivity.
  - cbn. constructor; [| constructor; [intros [] | constructor]].
    intros [H | []]. lra.
  - cbn. left. reflexivity.
  - cbn. right. left. reflexivity.
  - intros r [<- | [<- | []]]; cbn; lra.
  - cbn. lra.
Defined.



(** ** Walkers, entry by entry *)

Lemma perturb_nth (mag : R) (g : nat -> R) (v : list R) :
  forall s j,
    nth j (perturb mag v (map g (seq s (length v)))) 0
    = nth j v 0 * (1 + mag * g (s + j)%nat).
Proof.
  unfold perturb. induction v as [| p v IH]; intros s j; cbn.
  - destruct j; ring.
  - destruct j as [| j].
    + now rewrite Nat.add_0_r.
    + rewrite IH. now rewrite Nat.add_succ_r.
Qed.

Lemma walkers_entry mag noise nwalkers l tshift n w j :
  (w < nwalkers)%nat ->
  nth j (nth w (walkers mag noise nwalkers l tshift n) []) 0
  = nth j (l ++ repeat tshift n) 0 * (1 + mag * noise w j).
Proof.
  intros Hw. rewrite walkers_nth by exact Hw. unfold randn.
  replace (length l + n)%nat with (length (l ++ repeat tshift n))
    by (now rewrite List.length_app, List.repeat_length).
  now rewrite perturb_nth.
Qed.

Lemma walkers_dimension mag noise nwalkers l tshift n w :
  (w < nwalkers)%nat ->
  length (nth w (walkers mag noise nwalkers l tshift n) []) = (length l + n)%nat.
Proof.
  intros Hw. rewrite walkers_nth by exact Hw.
  rewrite perturb_length; rewrite ?randn_length;
    now rewrite List.length_app, List.repeat_length.
Qed.

(** X7.  In [src/ctools.py] every entry of every walker is the entry of
    the initial vector (the guess followed by the time shifts) times
    1 + mag*noise.  So the noise is relative: with mag = 0 all walkers sit
    exactly on the initial vector, and an entry whose initial value is 0
    is 0 for every walker, whatever mag and the noise are. *)
Theorem setup_positions_relative_noise
    {Burst : Type} (obs : list Burst) (nwalkers : nat) (params0 : option ref)
    (tshift mag : R) (noise : nat -> nat -> R) (h : gmap nat (list R))
    (l : list R) :
  h !! default ctools.params0_default params0 = Some l ->
  exists pos h',
    ctools.setup_positions obs nwalkers params0 tshift mag noise h = Some (pos, h')
    /\ (forall w j, (w < nwalkers)%nat ->
          nth j (nth w pos []) 0
          = nth j (l ++ repeat tshift (length obs)) 0 * (1 + mag * noise w j))
    /\ (mag = 0 -> forall w, (w < nwalkers)%nat ->
          nth w pos [] = l ++ repeat tshift (length obs))
    /\ (forall w j, (w < nwalkers)%nat ->
          nth j (l ++ repeat tshift (length obs)) 0 = 0 ->
          nth j (nth w pos []) 0 = 0).
Proof.
  intros Hp. rewrite (ctools_setup_positions_eval obs _ _ _ _ _ _ _ Hp).
  eexists _, _. split; [reflexivity |]. split; [| split].
  - intros w j Hw. now apply walkers_entry.
  - intros -> w Hw. apply List.nth_ext with (d := 0) (d' := 0).
    + rewrite walkers_dimension by exact Hw.
      now rewrite List.length_app, List.repeat_length.
    + intros j _. rewrite walkers_entry by exact Hw. ring.
  - intros w j Hw Hzero. rewrite walkers_entry by exact Hw. rewrite Hzero. ring.
Qed.

Lemma setup_positions_relative_noise_witness :
  exists pos h',
    ctools.setup_positions [tt; tt] 4 None 0 0.001 (fun w j => INR (w + j))
      ctools.initial_store = Some (pos, h')
    /\ (forall w j, (w < 4)%nat ->
          nth j ([6.09; 60; 1.28] ++ repeat 0 2) 0 = 0 ->
          nth j (nth w pos []) 0 = 0).
Proof.
  destruct (setup_positions_relative_noise [tt; tt] 4 None 0 0.001
              (fun w j => INR (w + j)) ctools.initial_store [6.09; 60; 1.28]
              (lookup_singleton_eq _ _))
    as (pos & h' & Hcall & _ & _ & Hzero).
  exists pos, h'. split; [exact Hcall | exact Hzero].
Defined.

(** ** The sampler *)

(** X8.  [setup_sampler] of [src/ctools.py], called without positions,
    builds the sampler for as many walkers as [setup_positions] makes and
    for a dimension equal to the length of the initial guess plus the
    number of observed bursts, and leaves the guess list as it was.  With
    nwalkers = 0 there is no first walker to measure and the call fails
    with an IndexError before any sampler is built. *)
Theorem setup_sampler_dimensions
    {Burst Model Sampler : Type}
    (EnsembleSampler : nat -> nat -> list Burst * list Model -> nat -> Sampler)
    (obs : list Burst) (models : list Model) (threads : nat)
    (kw : ctools_sampler.kwargs) (noise : nat -> nat -> R)
    (h : gmap nat (list R)) (l : list R) :
  h !! default ctools.params0_default (ctools_sampler.kw_params0 kw) = Some l ->
  let nwalkers := default 200%nat (ctools_sampler.kw_nwalkers kw) in
  exists h',
    ctools_sampler.setup_sampler EnsembleSampler obs models None threads kw noise h
    = Some (match nwalkers with
            | O => ctools_sampler.IndexError "list index out of range"
            | S _ =>
                ctools_sampler.Value
                  (EnsembleSampler nwalkers (length l + length obs)%nat
                     (obs, models) threads)
            end, h')
    /\ h' !! default ctools.params0_default (ctools_sampler.kw_params0 kw) = Some l.
Proof.
  intros Hp nwalkers. unfold ctools_sampler.setup_sampler. fold nwalkers.
  rewrite (ctools_setup_positions_eval obs _ _ _ _ _ _ _ Hp).
  eexists. split.
  - pose proof (walkers_length (default 0.001 (ctools_sampler.kw_mag kw))
                  noise nwalkers l (default (-6.5) (ctools_sampler.kw_tshift kw))
                  (length obs)) as Hlen.
    pose proof (walkers_dimension (default 0.001 (ctools_sampler.kw_mag kw))
                  noise nwalkers l (default (-6.5) (ctools_sampler.kw_tshift kw))
                  (length obs) 0%nat) as Hdim.
    destruct (walkers _ _ nwalkers l _ (length obs)) as [| pos0 rest].
    + cbn [length] in Hlen. rewrite <- Hlen. reflexivity.
    + cbn [length nth] in Hlen, Hdim |- *. rewrite <- Hlen in Hdim |- *.
      rewrite Hdim by lia. reflexivity.
  - rewrite lookup_insert_ne; [exact Hp |].
    intros E. apply (is_fresh (dom h)). rewrite E. apply elem_of_dom.
    rewrite Hp. eauto.
Qed.

Lemma setup_sampler_dimensions_witness :
  exists h',
    ctools_sampler.setup_sampler (fun nwalkers ndim _ _ => (nwalkers, ndim))
      [tt; tt; tt] [tt; tt; tt] None 4
      (ctools_sampler.mkKwargs None None None None) (fun _ _ => 0)
      ctools.initial_store
    = Some (ctools_sampler.Value (200%nat, 6%nat), h')
    /\ h' !! ctools.params0_default = Some [6.09; 60; 1.28].
Proof.
  exact (setup_sampler_dimensions (fun nwalkers ndim _ _ => (nwalkers, ndim))
           [tt; tt; tt] [tt; tt; tt] 4
           (ctools_sampler.mkKwargs None None None None) (fun _ _ => 0)
           ctools.initial_store [6.09; 60; 1.28] (lookup_singleton_eq _ _)).
Defined.

(** ** The later version of [setup_positions] *)

(** X9.  [setup_positions] of [src/pytools/ctools.py] grows the list it
    is given: after a call with [n_epochs = n] the caller's list holds n
    more entries, and a second call with the same list object returns
    positions of dimension len + 2n where the first returned len + n. *)
Theorem pytools_setup_positions_accumulates
    (get_pos : string -> gmap nat (list R) -> ref * gmap nat (list R))
    (get_n_epochs : string -> nat) (source : string) (nwalkers : nat)
    (p : ref) (n : nat) (tshift mag : R) (noise noise2 : nat -> nat -> R)
    (h : gmap nat (list R)) (l : list R) :
  h !! p = Some l ->
  exists pos h' pos2 h'',
    pytools_ctools.setup_positions get_pos get_n_epochs source nwalkers
      (Some p) (Some n) tshift mag noise h = Some (pos, h')
    /\ h' !! p = Some (l ++ repeat tshift n)
    /\ pytools_ctools.setup_positions get_pos get_n_epochs source nwalkers
         (Some p) (Some n) tshift mag noise2 h' = Some (pos2, h'')
    /\ h'' !! p = Some (l ++ repeat tshift (n + n))
    /\ forall w, (w < nwalkers)%nat ->
         length (nth w pos []) = (length l + n)%nat
         /\ length (nth w pos2 []) = (length l + n + n)%nat.
Proof.
  intros Hp.
  assert (Hp' : <[p := l ++ repeat tshift n]> h !! p = Some (l ++ repeat tshift n))
    by apply lookup_insert_eq.
  exists (walkers mag noise nwalkers l tshift n),
         (<[p := l ++ repeat tshift n]> h),
         (walkers mag noise2 nwalkers (l ++ repeat tshift n) tshift n),
         (<[p := (l ++ repeat tshift n) ++ repeat tshift n]>
            (<[p := l ++ repeat tshift n]> h)).
  split.
  { exact (pytools_setup_positions_eval get_pos get_n_epochs source nwalkers
             (Some p) (Some n) tshift mag noise h l Hp). }
  split; [exact Hp' |]. split.
  { exact (pytools_setup_positions_eval get_pos get_n_epochs source nwalkers
             (Some p) (Some n) tshift mag noise2 _ _ Hp'). }
  split.
  - rewrite lookup_insert_eq, <- List.app_assoc, List.repeat_app. reflexivity.
  - intros w Hw. rewrite !walkers_dimension by exact Hw.
    rewrite List.length_app, List.repeat_length. lia.
Qed.

Lemma pytools_setup_positions_accumulates_witness :
  exists pos h' pos2 h'',
    pytools_ctools.setup_positions (fun _ h => (0%nat, h)) (fun _ => 3%nat)
      "gs1826" 200 (Some 0%nat) (Some 3%nat) (-6.5) 0.001 (fun _ _ => 0)
      ctools.initial_store = Some (pos, h')
    /\ h' !! 0%nat = Some ([6.09; 60; 1.28] ++ repeat (-6.5) 3)
    /\ pytools_ctools.setup_positions (fun _ h => (0%nat, h)) (fun _ => 3%nat)
         "gs1826" 200 (Some 0%nat) (Some 3%nat) (-6.5) 0.001 (fun _ _ => 1) h'
       = Some (pos2, h'')
    /\ h'' !! 0%nat = Some ([6.09; 60; 1.28] ++ repeat (-6.5) (3 + 3))
    /\ forall w, (w < 200)%nat ->
         length (nth w pos []) = (3 + 3)%nat
         /\ length (nth w pos2 []) = (3 + 3 + 3)%nat.
Proof.
  exact (pytools_setup_positions_accumulates (fun _ h => (0%nat, h))
           (fun _ => 3%nat) "gs1826" 200 0%nat 3 (-6.5) 0.001 (fun _ _ => 0)
           (fun _ _ => 1) ctools.initial_store [6.09; 60; 1.28]
           (lookup_singleton_eq _ _)).
Defined.

(** ** Ranges *)

Lemma range_positive_step (start stop step : Z) :
  (0 < step)%Z ->
  py.range start stop step
  = Some (map (fun k => (start + step * Z.of_nat k)%Z)
              (seq 0 (Z.to_nat (if (stop <=? start)%Z then 0%Z
                                else ((stop - start - 1) / step + 1)%Z)))).
Proof.
  intros Hstep. unfold py.range.
  destruct (Z.eqb_spec step 0) as [E | _]; [lia |].
  destruct (Z.ltb_spec 0 step) as [_ | H]; [reflexivity | lia].
Qed.

(** With a positive step the items are the numbers from [start] up to,
    not including, [stop], that are a whole number of steps from
    [start]. *)
Lemma range_items (start stop step : Z) (l : list Z) (b : Z) :
  (0 < step)%Z ->
  py.range start stop step = Some l ->
  In b l <-> (start <= b < stop)%Z /\ ((b - start) mod step = 0)%Z.
Proof.
  intros Hstep. rewrite range_positive_step by exact Hstep.
  intros [= <-]. rewrite List.in_map_iff. split.
  - intros (k & <- & Hk). apply List.in_seq in Hk.
    destruct (Z.leb_spec stop start) as [Hle | Hlt]; [cbn in Hk; lia |].
    pose proof (Z.mul_div_le (stop - start - 1) step Hstep).
    assert (Z.of_nat k <= (stop - start - 1) / step)%Z by lia.
    split; [nia |].
    replace (start + step * Z.of_nat k - start)%Z with (Z.of_nat k * step)%Z by ring.
    apply Z.mod_mul. lia.
  - intros [[Hlo Hhi] Hmod].
    apply Z.div_exact in Hmod; [| lia].
    assert (Hq : (0 <= (b - start) / step)%Z) by (apply Z.div_pos; lia).
    exists (Z.to_nat ((b - start) / step)). split; [lia |].
    apply List.in_seq.
    destruct (Z.leb_spec stop start) as [Hle | Hlt]; [lia |].
    assert ((b - start) / step <= (stop - start - 1) / step)%Z
      by (apply Z.div_le_mono; lia).
    lia.
Qed.

(** ** The batches that [combine_mcmc] reads *)

Lemma excluded_spec (exclude : list Z) (b : Z) :
  negb (existsb (Z.eqb b) exclude) = true <-> ~ In b exclude.
Proof.
  rewrite Bool.negb_true_iff, <- Bool.not_true_iff_false, List.existsb_exists.
  split; intros H.
  - intros Hin. apply H. exists b. split; [exact Hin | apply Z.eqb_refl].
  - intros (x & Hin & E). apply Z.eqb_eq in E. subst x. exact (H Hin).
Qed.

(** X10.  [combine_mcmc] reads, for source 'gs1826', the tables of the
    batches 4, 7, 9 (whatever [last_batch] is) and of every multiple of 3
    from 12 up to and including [last_batch]; for source '4u1820' those
    of the even batches from 2 up to but not including [last_batch]; in
    both cases without the excluded ones.  For any other source
    [all_batches] is never bound and the loop cannot start. *)
Theorem combine_mcmc_batches :
  (forall last_batch exclude,
     exists batches,
       combined_batches "gs1826" last_batch exclude = Some batches
       /\ forall b, In b batches <->
            ~ In b exclude
            /\ (b = 4 \/ b = 7 \/ b = 9
                \/ (12 <= b <= last_batch /\ b mod 3 = 0))%Z)
  /\ (forall last_batch exclude,
        exists batches,
          combined_batches "4u1820" last_batch exclude = Some batches
          /\ forall b, In b batches <->
               ~ In b exclude /\ (2 <= b < last_batch /\ b mod 2 = 0)%Z)
  /\ (forall source last_batch exclude,
        source <> "gs1826" -> source <> "4u1820" ->
        combined_batches source last_batch exclude = None).
Proof.
  split; [| split].
  - intros last_batch exclude. unfold combined_batches, all_batches.
    cbn [String.eqb Ascii.eqb Bool.eqb].
    destruct (py.range 12 (last_batch + 1) 3) as [rest |] eqn:Hrange;
      [| rewrite range_positive_step in Hrange by lia; discriminate].
    eexists. split; [reflexivity |]. intros b.
    rewrite List.filter_In, excluded_spec, List.in_app_iff.
    rewrite (range_items 12 (last_batch + 1) 3 rest b ltac:(lia) Hrange).
    cbn [In]. split.
    + intros [[[<- | [<- | [<- | []]]] | [Hb Hmod]] Hex]; split; try exact Hex; auto.
      right; right; right. split; [lia |]. rewrite <- Hmod.
      replace b with (b - 12 + 4 * 3)%Z at 1 by ring. apply Z.mod_add. lia.
    + intros [Hex [-> | [-> | [-> | [Hb Hmod]]]]]; split; auto.
      right. split; [lia |]. rewrite <- Hmod.
      replace b with (b - 12 + 4 * 3)%Z at 2 by ring.
      symmetry. apply Z.mod_add. lia.
  - intros last_batch exclude. unfold combined_batches, all_batches.
    cbn [String.eqb Ascii.eqb Bool.eqb].
    destruct (py.range 2 last_batch 2) as [items |] eqn:Hrange;
      [| rewrite range_positive_step in Hrange by lia; discriminate].
    eexists. split; [reflexivity |]. intros b.
    rewrite List.filter_In, excluded_spec.
    rewrite (range_items 2 last_batch 2 items b ltac:(lia) Hrange).
    assert (Hmod : ((b - 2) mod 2 = b mod 2)%Z).
    { replace b with (b - 2 + 1 * 2)%Z at 2 by ring.
      symmetry. apply Z.mod_add. lia. }
    rewrite Hmod. tauto.
  - intros source last_batch exclude H1 H2.
    apply String.eqb_neq in H1. apply String.eqb_neq in H2.
    unfold combined_batches, all_batches. now rewrite H1, H2.
Qed.

Lemma combine_mcmc_batches_witness :
  combined_batches "aql_x1" 30 [] = None.
Proof.
  refine (proj2 (proj2 combine_mcmc_batches) "aql_x1" 30%Z [] _ _); discriminate.
Defined.

(** ** The frames of [animate_contours] *)

Lemma round_quotient_multiple (dt k : Z) :
  (0 < dt)%Z -> py.round_quotient (dt * k) dt = k.
Proof.
  intros Hdt. unfold py.round_quotient.
  replace (dt * k)%Z with (k * dt)%Z by ring.
  rewrite Z.mod_mul, Z.div_mul by lia.
  destruct (Z.compare_spec (2 * 0) dt) as [H | H | H]; lia.
Qed.

(** X11.  For a positive [dt], [animate_contours] saves frames numbered
    1, 2, ..., K without a gap, frame k showing the first k*dt steps of
    the chain; every frame shows fewer than [nsteps] steps and K is the
    largest number for which that holds.  With dt = 0 the loop fails
    before the first frame. *)
Theorem animate_contours_frame_numbers (dt nsteps : Z) :
  ((0 < dt)%Z ->
   exists K,
     animate_contours_frames dt nsteps
     = Some (map (fun k => (dt * Z.of_nat k, Z.of_nat k)%Z) (seq 1 K))
     /\ (forall k, (1 <= k <= K)%nat -> (dt * Z.of_nat k < nsteps)%Z)
     /\ (nsteps <= dt * Z.of_nat (S K))%Z)
  /\ animate_contours_frames 0 nsteps = None.
Proof.
  split; [| reflexivity].
  intros Hdt. unfold animate_contours_frames.
  rewrite range_positive_step by exact Hdt.
  set (n := Z.to_nat (if (nsteps <=? dt)%Z then 0%Z
                      else ((nsteps - dt - 1) / dt + 1)%Z)).
  exists n. split; [| split].
  - rewrite List.map_map, <- List.seq_shift, List.map_map.
    f_equal. apply List.map_ext. intros k.
    replace (dt + dt * Z.of_nat k)%Z with (dt * Z.of_nat (S k))%Z by lia.
    now rewrite round_quotient_multiple.
  - intros k Hk. unfold n in Hk.
    destruct (Z.leb_spec nsteps dt) as [Hle | Hlt]; [cbn in Hk; lia |].
    pose proof (Z.mul_div_le (nsteps - dt - 1) dt Hdt).
    assert (Z.of_nat k <= (nsteps - dt - 1) / dt + 1)%Z by lia.
    nia.
  - unfold n.
    destruct (Z.leb_spec nsteps dt) as [Hle | Hlt]; [cbn; lia |].
    pose proof (Z.mul_succ_div_gt (nsteps - dt - 1) dt Hdt).
    assert (0 <= (nsteps - dt - 1) / dt)%Z by (apply Z.div_pos; lia).
    rewrite Nat2Z.inj_succ, Z2Nat.id by lia. nia.
Qed.

Lemma animate_contours_frame_numbers_witness :
  exists K,
    animate_contours_frames 5 23
    = Some (map (fun k => (5 * Z.of_nat k, Z.of_nat k)%Z) (seq 1 K))
    /\ (forall k, (1 <= k <= K)%nat -> (5 * Z.of_nat k < 23)%Z)
    /\ (23 <= 5 * Z.of_nat (S K))%Z.
Proof.
  refine (proj1 (animate_contours_frame_numbers 5 23) _). lia.
Defined.

(** ** The neutron star of [load_models] *)

(** X12.  For a star outside its Schwarzschild radius, that is for a
    mass >= 0 with 2*G*M_NS < c^2*R_NS, [load_models] computes a redshift
    factor opz >= 1 with opz^2 * (1 - 2*G*M_NS/(c^2*R_NS)) = 1, and a
    surface gravity g = opz * G*M_NS/R_NS^2, at least the Newtonian one.
    At 2*G*M_NS = c^2*R_NS the division by the zero root raises
    ZeroDivisionError, beyond it the square root raises ValueError; in
    both cases no gravity is computed. *)
Theorem load_models_redshift (G c M_sun R_NS mass : R) :
  0 < G -> 0 < c -> 0 < M_sun -> 0 < R_NS ->
  let M := load_models.M_NS M_sun mass in
  (0 <= mass -> 2 * G * M < c ^ 2 * R_NS ->
   exists z,
     load_models.opz G c M_sun R_NS mass = load_models.Value z
     /\ load_models.g G c M_sun R_NS mass
        = load_models.Value (z * (G * M / R_NS ^ 2))
     /\ 1 <= z
     /\ z ^ 2 * (1 - 2 * G * M / (c ^ 2 * R_NS)) = 1
     /\ G * M / R_NS ^ 2 <= z * (G * M / R_NS ^ 2))
  /\ (2 * G * M = c ^ 2 * R_NS ->
      exists msg,
        load_models.opz G c M_sun R_NS mass = load_models.ZeroDivisionError msg
        /\ load_models.g G c M_sun R_NS mass = load_models.ZeroDivisionError msg)
  /\ (c ^ 2 * R_NS < 2 * G * M ->
      exists msg,
        load_models.opz G c M_sun R_NS mass = load_models.ValueError msg
        /\ load_models.g G c M_sun R_NS mass = load_models.ValueError msg).
Proof.
  intros HG Hc HM HR M.
  assert (Hc2 : 0 < c ^ 2) by (apply pow_lt; lra).
  assert (HR2 : 0 < R_NS ^ 2) by (apply pow_lt; lra).
  assert (Hden : 0 < c ^ 2 * R_NS) by (apply Rmult_lt_0_compat; lra).
  set (x := 2 * G * M / (c ^ 2 * R_NS)).
  assert (Hx : x * (c ^ 2 * R_NS) = 2 * G * M) by (unfold x; field; lra).
  split; [| split].
  - intros Hmass Hlt.
    assert (HM0 : 0 <= M) by (unfold M, load_models.M_NS; nra).
    assert (Hx0 : 0 <= x).
    { unfold x. apply Rmult_le_pos; [nra |]. left. now apply Rinv_0_lt_compat. }
    assert (Hx1 : x < 1) by nra.
    assert (Hs : 0 < sqrt (1 - x)) by (apply sqrt_lt_R0; lra).
    assert (Hs1 : sqrt (1 - x) <= 1).
    { apply Rle_trans with (sqrt 1); [apply sqrt_le_1; lra |].
      rewrite sqrt_1. lra. }
    assert (Hss : sqrt (1 - x) * sqrt (1 - x) = 1 - x) by (apply sqrt_sqrt; lra).
    assert (Hopz : load_models.opz G c M_sun R_NS mass
                   = load_models.Value (1 / sqrt (1 - x))).
    { unfold load_models.opz. fold M. fold x.
      destruct (Rlt_dec (1 - x) 0) as [H | _]; [lra |].
      destruct (Req_dec_T (sqrt (1 - x)) 0) as [H | _]; [lra | reflexivity]. }
    assert (Hz : 1 <= 1 / sqrt (1 - x)).
    { apply Rmult_le_reg_r with (sqrt (1 - x)); [exact Hs |].
      replace (1 / sqrt (1 - x) * sqrt (1 - x)) with 1 by (field; lra). lra. }
    exists (1 / sqrt (1 - x)).
    split; [exact Hopz |]. split; [| split; [exact Hz | split]].
    + unfold load_models.g. rewrite Hopz. fold M. f_equal. field. lra.
    + replace ((1 / sqrt (1 - x)) ^ 2 * (1 - x))
        with ((1 - x) / (sqrt (1 - x) * sqrt (1 - x))) by (field; lra).
      rewrite Hss. field. lra.
    + assert (0 <= G * M / R_NS ^ 2).
      { apply Rmult_le_pos; [nra |]. left. now apply Rinv_0_lt_compat. }
      nra.
  - intros Heq.
    assert (Hx1 : x = 1) by nra.
    assert (Hopz : load_models.opz G c M_sun R_NS mass
                   = load_models.ZeroDivisionError "float division by zero").
    { unfold load_models.opz. fold M. fold x. rewrite Hx1.
      replace (1 - 1) with 0 by ring. rewrite sqrt_0.
      destruct (Rlt_dec 0 0) as [H | _]; [lra |].
      destruct (Req_dec_T 0 0) as [_ | H]; [reflexivity | contradiction]. }
    eexists. split; [exact Hopz |]. unfold load_models.g. now rewrite Hopz.
  - intros Hgt.
    assert (Hx1 : 1 < x) by nra.
    assert (Hopz : load_models.opz G c M_sun R_NS mass
                   = load_models.ValueError "math domain error").
    { unfold load_models.opz. fold M. fold x.
      destruct (Rlt_dec (1 - x) 0) as [_ | H]; [reflexivity | lra]. }
    eexists. split; [exact Hopz |]. unfold load_models.g. now rewrite Hopz.
Qed.

Lemma load_models_redshift_witness :
  exists z,
    load_models.opz 1 1 1 4 1 = load_models.Value z
    /\ load_models.g 1 1 1 4 1
       = load_models.Value (z * (1 * load_models.M_NS 1 1 / 4 ^ 2))
    /\ 1 <= z
    /\ z ^ 2 * (1 - 2 * 1 * load_models.M_NS 1 1 / (1 ^ 2 * 4)) = 1
    /\ 1 * load_models.M_NS 1 1 / 4 ^ 2 <= z * (1 * load_models.M_NS 1 1 / 4 ^ 2).
Proof.
  refine (proj1 (load_models_redshift 1 1 1 4 1 _ _ _ _) _ _);
    unfold load_models.M_NS; lra.
Defined.

(** ** Loading observations and models *)

Section loading.

Context {Burst Model : Type}.
Variable ObservedBurst : string -> string -> option Burst.
Variable KeplerBurst : ctools_load.KeplerBurst_args -> option Model.
Variable read_csv : string -> option (list ctools_load.mtable_row).
Variable read_table : string -> option (list ctools_load.ptable_row).
Variables G c M_sun : R.
Variables source basename params_prefix summ_prefix mean_path source_path : string.

Let load_model :=
  ctools_load.load_model KeplerBurst read_csv read_table G c M_sun
    source basename params_prefix summ_prefix mean_path source_path.

Let load_models_loop :=
  ctools_load.load_models_loop KeplerBurst read_csv read_table G c M_sun
    source basename params_prefix summ_prefix mean_path source_path.

Lemma skipn_nth_error {A : Type} (l : list A) (i : nat) :
  skipn i l = match nth_error l i with
              | Some a => a :: skipn (S i) l
              | None => []
              end.
Proof.
  revert i. induction l as [| a l IH]; intros [| i]; cbn; try reflexivity.
  apply IH.
Qed.

Lemma load_obs_loop_spec (files : list string) (path : string) (obs : list Burst) :
  ctools_load.load_obs_loop ObservedBurst files path = ctools_load.Value obs
  <-> List.Forall2 (fun file b => ObservedBurst file path = Some b) files obs.
Proof.
  revert obs. induction files as [| file files IH]; intros obs; cbn.
  - split.
    + intros [= <-]. constructor.
    + intros H. inversion H. reflexivity.
  - destruct (ObservedBurst file path) as [b |] eqn:Hb.
    + destruct (ctools_load.load_obs_loop ObservedBurst files path) as [obs' | e].
      * split.
        -- intros [= <-]. constructor; [exact Hb | now apply IH].
        -- intros H. inversion H as [| ? b' ? obs'' Hb' Hrest]; subst.
           rewrite Hb in Hb'. injection Hb' as <-.
           apply IH in Hrest. injection Hrest as <-. reflexivity.
      * split; [discriminate |].
        intros H. inversion H as [| ? b' ? obs'' Hb' Hrest]; subst.
        apply IH in Hrest. discriminate Hrest.
    + split; [discriminate |].
      intros H. inversion H as [| ? b' ? obs'' Hb' Hrest]; subst.
      rewrite Hb in Hb'. discriminate Hb'.
Qed.

Lemma load_models_loop_spec (runs batches : list Z) (models : list Model) :
  forall i,
    load_models_loop i runs batches = ctools_load.Value models
    <-> (length runs <= length (skipn i batches))%nat
        /\ List.Forall2 (fun rb m => load_model (fst rb) (snd rb) = ctools_load.Value m)
             (combine runs (skipn i batches)) models.
Proof.
  revert models. induction runs as [| run runs IH]; intros models i.
  - cbn. split.
    + intros [= <-]. split; [lia | constructor].
    + intros [_ H]. inversion H. reflexivity.
  - cbn [ctools_load.load_models_loop load_models_loop length].
    unfold load_models_loop at 1. cbn [ctools_load.load_models_loop].
    fold load_models_loop. fold load_model.
    rewrite (skipn_nth_error batches i).
    destruct (nth_error batches i) as [batch |].
    + cbn [combine length].
      destruct (load_model run batch) as [m | e] eqn:Hm.
      * destruct (load_models_loop (S i) runs batches) as [ms | e] eqn:Hloop.
        -- split.
           ++ intros [= <-]. apply IH in Hloop as [Hlen Hall].
              split; [lia |]. constructor; [exact Hm | exact Hall].
           ++ intros [Hlen H]. inversion H as [| ? m' ? ms' Hm' Hrest]; subst.
              cbn [fst snd] in Hm'. rewrite Hm in Hm'. injection Hm' as <-.
              assert (Hms : load_models_loop (S i) runs batches = ctools_load.Value ms')
                by (apply IH; split; [lia | exact Hrest]).
              rewrite Hloop in Hms. injection Hms as <-. reflexivity.
        -- split; [discriminate |].
           intros [Hlen H]. inversion H as [| ? m' ? ms' Hm' Hrest]; subst.
           assert (Hms : load_models_loop (S i) runs batches = ctools_load.Value ms')
             by (apply IH; split; [lia | exact Hrest]).
           rewrite Hloop in Hms. discriminate Hms.
      * split; [discriminate |].
        intros [Hlen H]. inversion H as [| ? m' ? ms' Hm' Hrest]; subst.
        cbn [fst snd] in Hm'. rewrite Hm in Hm'. discriminate Hm'.
    + cbn [length]. split; [discriminate | intros [Hlen _]; lia].
Qed.

(** X13.  [load_obs] of [src/ctools.py] knows two sources.  When it
    returns, the source is one of them and there is one burst per file of
    that source (three for 'gs1826', two for '4u1820'), burst k built
    from file k in the directory of the source.  For any other source it
    raises KeyError. *)
Theorem load_obs_epochs (src obs_path : string) :
  (forall obs,
     ctools_load.load_obs ObservedBurst src obs_path = ctools_load.Value obs ->
     exists files,
       ctools_load.obs_files src = Some files
       /\ List.Forall2
            (fun file b =>
               ObservedBurst file (ctools_load.join obs_path src) = Some b)
            files obs
       /\ ((src = "gs1826" /\ length obs = 3%nat)
           \/ (src = "4u1820" /\ length obs = 2%nat)))
  /\ (src <> "gs1826" -> src <> "4u1820" ->
      ctools_load.load_obs ObservedBurst src obs_path
      = ctools_load.Raised (ctools_load.KeyError src)).
Proof.
  split.
  - intros obs. unfold ctools_load.load_obs.
    destruct (ctools_load.obs_files src) as [files |] eqn:Hfiles; [| discriminate].
    intros Hload. apply load_obs_loop_spec in Hload.
    exists files. split; [reflexivity |]. split; [exact Hload |].
    apply List.Forall2_length in Hload.
    unfold ctools_load.obs_files in Hfiles.
    destruct (String.eqb_spec src "gs1826") as [E | _].
    + injection Hfiles as <-. left. split; [exact E | now rewrite <- Hload].
    + destruct (String.eqb_spec src "4u1820") as [E | _]; [| discriminate].
      injection Hfiles as <-. right. split; [exact E | now rewrite <- Hload].
  - intros H1 H2. apply String.eqb_neq in H1. apply String.eqb_neq in H2.
    unfold ctools_load.load_obs, ctools_load.obs_files. now rewrite H1, H2.
Qed.

(** X14.  [load_models] of [src/ctools.py] keeps the pairing of runs and
    batches: it returns exactly when there are at least as many batches
    as runs and every run loads with the batch at its own position, and
    then model k is the model of run k with batch k, so that there are as
    many models as runs. *)
Theorem load_models_pairing (runs batches : list Z) (models : list Model) :
  ctools_load.load_models KeplerBurst read_csv read_table G c M_sun
    runs batches source basename params_prefix summ_prefix mean_path source_path
  = ctools_load.Value models
  <-> (length runs <= length batches)%nat
      /\ length models = length runs
      /\ forall k run,
           nth_error runs k = Some run ->
           exists batch m,
             nth_error batches k = Some batch
             /\ nth_error models k = Some m
             /\ load_model run batch = ctools_load.Value m.
Proof.
  unfold ctools_load.load_models. fold load_models_loop.
  rewrite load_models_loop_spec. change (skipn 0 batches) with batches. split.
  - intros [Hlen Hall]. split; [exact Hlen |].
    pose proof (List.Forall2_length Hall) as Hl.
    rewrite List.length_combine in Hl.
    split; [lia |].
    intros k run Hk.
    assert (Hkl : (k < length runs)%nat) by (apply List.nth_error_Some; congruence).
    destruct (nth_error batches k) as [batch |] eqn:Hb;
      [| apply List.nth_error_None in Hb; lia].
    destruct (nth_error models k) as [m |] eqn:Hm;
      [| apply List.nth_error_None in Hm; lia].
    exists batch, m. split; [reflexivity |]. split; [reflexivity |].
    assert (Hc : nth_error (combine runs batches) k = Some (run, batch)).
    { clear - Hk Hb. revert k batches Hk Hb.
      induction runs as [| r rs IH]; intros [| k] [| b bs] Hk Hb;
        cbn in *; try discriminate.
      - now injection Hk as ->; injection Hb as ->.
      - now apply IH. }
    clear - Hall Hc Hm. revert k Hc Hm.
    induction Hall as [| rb m' rbs ms Hhead Hrest IH]; intros [| k] Hc Hm;
      cbn in *; try discriminate.
    + injection Hc as ->. injection Hm as ->. exact Hhead.
    + now apply (IH k).
  - intros (Hlen & Hl & Hpair). split; [exact Hlen |].
    clear load_models_loop. revert batches models Hlen Hl Hpair.
    induction runs as [| run rs IH]; intros batches models Hlen Hl Hpair.
    + destruct models; [constructor | discriminate Hl].
    + destruct batches as [| batch bs]; [cbn in Hlen; lia |].
      destruct models as [| m ms]; [discriminate Hl |].
      cbn [combine]. constructor.
      * destruct (Hpair 0%nat run eq_refl) as (b' & m' & [= <-] & [= <-] & H).
        exact H.
      * apply IH; cbn in *; [lia | lia |].
        intros k r Hk. exact (Hpair (S k) r Hk).
Qed.

(** X15.  With fewer batches than runs, [load_models] never returns: the
    one-to-one correspondence is enforced by an exception.  Batches beyond
    the number of runs are not looked at: adding some changes nothing. *)
Theorem load_models_batches (runs batches extra : list Z) :
  ((length batches < length runs)%nat ->
   exists e,
     ctools_load.load_models KeplerBurst read_csv read_table G c M_sun
       runs batches source basename params_prefix summ_prefix mean_path
       source_path = ctools_load.Raised e)
  /\ ((length runs <= length batches)%nat ->
      ctools_load.load_models KeplerBurst read_csv read_table G c M_sun
        runs (batches ++ extra) source basename params_prefix summ_prefix
        mean_path source_path
      = ctools_load.load_models KeplerBurst read_csv read_table G c M_sun
          runs batches source basename params_prefix summ_prefix mean_path
          source_path).
Proof.
  unfold ctools_load.load_models. fold load_models_loop. split.
  - intros Hshort.
    destruct (load_models_loop 0%nat runs batches) as [models | e] eqn:Hloop;
      [| eauto].
    apply load_models_loop_spec in Hloop as [Hlen _].
    change (skipn 0 batches) with batches in Hlen. lia.
  - assert (Hgen : forall i, (i + length runs <= length batches)%nat ->
              load_models_loop i runs (batches ++ extra)
              = load_models_loop i runs batches).
    { induction runs as [| run rs IH]; intros i Hi; [reflexivity |].
      unfold load_models_loop. cbn [ctools_load.load_models_loop].
      fold load_models_loop.
      rewrite List.nth_error_app1 by (cbn in Hi; lia).
      destruct (nth_error batches i) as [batch |]; [| reflexivity].
      rewrite IH by (cbn in Hi; lia). reflexivity. }
    intros Hlen. apply Hgen. lia.
Qed.

End loading.

(** ** Examples of loading *)

Lemma example_load_models_one :
  exists m, example_load_models [5%Z] [2%Z; 3%Z] = ctools_load.Value [m]
            /\ ctools_load.kb_tdel m = 7200 / 3600
            /\ ctools_load.kb_filename m = "gs1826_2_xrb5_mean.data".
Proof.
  unfold example_load_models, ctools_load.load_models.
  cbn [ctools_load.load_models_loop nth_error].
  unfold ctools_load.load_model, example_read_csv, example_read_table.
  cbn [ctools_load.where_id ctools_load.id Z.eqb Pos.eqb nth nth_error
       ctools_load.mass ctools_load.x ctools_load.z ctools_load.accrate
       ctools_load.xi ctools_load.tDel ctools_load.uTDel].
  unfold load_models.g, load_models.opz, load_models.M_NS.
  replace (1 - 2 * 1 * (0 * 1) / (1 ^ 2 * (12.1 * 1000))) with 1 by (field; lra).
  rewrite sqrt_1.
  destruct (Rlt_dec 1 0) as [H | _]; [lra |].
  destruct (Req_dec_T 1 0) as [H | _]; [lra |].
  eexists. split; [reflexivity |]. split; reflexivity.
Qed.

Lemma load_obs_epochs_witness :
  ctools_load.load_obs (fun file path => Some (file, path)) "aql_x1" "/obs_data"
  = ctools_load.Raised (ctools_load.KeyError "aql_x1").
Proof.
  refine (proj2 (load_obs_epochs (fun file path => Some (file, path))
                   "aql_x1" "/obs_data") _ _); discriminate.
Defined.

Lemma load_models_pairing_witness :
  exists m,
    (length [5%Z] <= length [2%Z; 3%Z])%nat
    /\ length [m] = length [5%Z]
    /\ forall k run,
         nth_error [5%Z] k = Some run ->
         exists batch m',
           nth_error [2%Z; 3%Z] k = Some batch
           /\ nth_error [m] k = Some m'
           /\ ctools_load.load_model Some example_read_csv example_read_table
                1 1 1 "gs1826" "xrb" "params" "summ" "/grids/mean"
                "/grids/gs1826/" run batch = ctools_load.Value m'.
Proof.
  destruct example_load_models_one as (m & Hload & _).
  exists m.
  exact (proj1 (load_models_pairing Some example_read_csv example_read_table
                  1 1 1 "gs1826" "xrb" "params" "summ" "/grids/mean"
                  "/grids/gs1826/" [5%Z] [2%Z; 3%Z] [m]) Hload).
Defined.

Lemma load_models_batches_witness :
  (exists e, example_load_models [4%Z; 5%Z] [2%Z] = ctools_load.Raised e)
  /\ example_load_models [5%Z] ([2%Z] ++ [3%Z]) = example_load_models [5%Z] [2%Z].
Proof.
  split.
  - refine (proj1 (load_models_batches Some example_read_csv example_read_table
                     1 1 1 "gs1826" "xrb" "params" "summ" "/grids/mean"
                     "/grids/gs1826/" [4%Z; 5%Z] [2%Z] []) _).
    cbn. lia.
  - refine (proj2 (load_models_batches Some example_read_csv example_read_table
                     1 1 1 "gs1826" "xrb" "params" "summ" "/grids/mean"
                     "/grids/gs1826/" [5%Z] [2%Z] [3%Z]) _).
    cbn. lia.
Defined.

(** ** Loading models, the later version *)

Lemma for_enumerate_spec {Model : Type} (body : Z -> Z -> ctools_load.py Model)
    (runs batches : list Z) (models : list Model) :
  forall i,
    pytools_load.for_enumerate body i runs batches = ctools_load.Value models
    <-> (length runs <= length (skipn i batches))%nat
        /\ List.Forall2 (fun rb m => body (fst rb) (snd rb) = ctools_load.Value m)
             (combine runs (skipn i batches)) models.
Proof.
  revert models. induction runs as [| r runs IH]; intros models i.
  - cbn. split.
    + intros [= <-]. split; [lia | constructor].
    + intros [_ H]. inversion H. reflexivity.
  - cbn [pytools_load.for_enumerate length].
    rewrite (skipn_nth_error batches i).
    destruct (nth_error batches i) as [batch |].
    + cbn [combine length].
      destruct (body r batch) as [m | e] eqn:Hm.
      * destruct (pytools_load.for_enumerate body (S i) runs batches)
          as [ms | e] eqn:Hloop.
        -- split.
           ++ intros [= <-]. apply IH in Hloop as [Hlen Hall].
              split; [lia |]. constructor; [exact Hm | exact Hall].
           ++ intros [Hlen H]. inversion H as [| ? m' ? ms' Hm' Hrest]; subst.
              cbn [fst snd] in Hm'. rewrite Hm in Hm'. injection Hm' as <-.
              assert (Hms : pytools_load.for_enumerate body (S i) runs batches
                            = ctools_load.Value ms')
                by (apply IH; split; [lia | exact Hrest]).
              rewrite Hloop in Hms. injection Hms as <-. reflexivity.
        -- split; [discriminate |].
           intros [Hlen H]. inversion H as [| ? m' ? ms' Hm' Hrest]; subst.
           assert (Hms : pytools_load.for_enumerate body (S i) runs batches
                         = ctools_load.Value ms')
             by (apply IH; split; [lia | exact Hrest]).
           rewrite Hloop in Hms. discriminate Hms.
      * split; [discriminate |].
        intros [Hlen H]. inversion H as [| ? m' ? ms' Hm' Hrest]; subst.
        cbn [fst snd] in Hm'. rewrite Hm in Hm'. discriminate Hm'.
    + cbn [length]. split; [discriminate | intros [Hlen _]; lia].
Qed.

Lemma forall2_repeat_combine {A B C : Type} (P : A * B -> C -> Prop) (a : A)
    (bs : list B) (cs : list C) :
  List.Forall2 P (combine (repeat a (length bs)) bs) cs
  <-> List.Forall2 (fun b c => P (a, b) c) bs cs.
Proof.
  revert cs. induction bs as [| b bs IH]; intros cs; cbn.
  - split; intros H; inversion H; constructor.
  - split; intros H; inversion H; subst; constructor; try assumption;
      now apply IH.
Qed.

(** X16.  In [src/pytools/ctools.py], [load_models] called with a single
    run uses that run for every batch of the expanded batch list: it
    returns exactly when the run loads with each of the batches, and then
    gives one model per batch, in the order of the batches (none, and no
    error, for an empty batch list). *)
Theorem pytools_load_models_single_run
    {Model Batches : Type}
    (expand_batches : Batches -> string -> list Z)
    (KeplerBurst : ctools_load.KeplerBurst_args -> option Model)
    (read_table : string -> option (list pytools_load.ptable_row))
    (read_summ : string -> option (list ctools_load.mtable_row))
    (G c M_sun : R) (r : Z) (batches : Batches)
    (source basename params_prefix summ_prefix path : string)
    (models : list Model) :
  pytools_load.load_models expand_batches KeplerBurst read_table read_summ
    G c M_sun [r] batches source basename params_prefix summ_prefix path
  = ctools_load.Value models
  <-> List.Forall2
        (fun batch m =>
           pytools_load.load_model KeplerBurst read_table read_summ G c M_sun
             source basename params_prefix summ_prefix path r batch
           = ctools_load.Value m)
        (expand_batches batches source) models.
Proof.
  unfold pytools_load.load_models.
  rewrite for_enumerate_spec.
  change (skipn 0 (expand_batches batches source))
    with (expand_batches batches source).
  rewrite List.repeat_length.
  rewrite (forall2_repeat_combine
             (fun rb m =>
                pytools_load.load_model KeplerBurst read_table read_summ G c M_sun
                  source basename params_prefix summ_prefix path (fst rb) (snd rb)
                = ctools_load.Value m)).
  cbn [fst snd]. split; [intros [_ H]; exact H | intros H; split; [lia | exact H]].
Qed.

Lemma pytools_load_models_single_run_witness :
  pytools_load.load_models (fun (_ : Z) _ => []) Some (fun _ => None)
    (fun _ => None) 1 1 1 [7%Z] 12%Z "gs1826" "xrb" "params" "summ" "/grids"
  = ctools_load.Value ([] : list ctools_load.KeplerBurst_args).
Proof.
  apply (proj2 (pytools_load_models_single_run (fun (_ : Z) _ => []) Some
                  (fun _ => None) (fun _ => None) 1 1 1 7%Z 12%Z "gs1826" "xrb"
                  "params" "summ" "/grids" [])).
  constructor.
Defined.

(** ** The sampler, the later version *)

Lemma walkers_cons mag noise n l tshift k :
  exists rest,
    walkers mag noise (S n) l tshift k
    = perturb mag (l ++ repeat tshift k) (randn noise 0 (length l + k)) :: rest
    /\ length rest = n.
Proof.
  unfold walkers. cbn [seq map]. eexists. split; [reflexivity |].
  now rewrite List.length_map, List.length_seq.
Qed.

(** X17.  [setup_sampler] of [src/pytools/ctools.py], called without
    positions on a list of initial parameters, takes the dimension from
    that list and [n_epochs] alone (the observations passed in play no
    part): ndim = len(params) + n_epochs.  Because the list is grown in
    place, a second call with the same arguments builds a sampler of
    dimension len(params) + 2*n_epochs. *)
Theorem pytools_setup_sampler_twice
    {Burst Model Weights Sampler : Type}
    (get_pos : string -> gmap nat (list R) -> ref * gmap nat (list R))
    (get_n_epochs : string -> nat)
    (EnsembleSampler :
       nat -> nat -> list Burst * list Model * Weights * string -> nat -> Sampler)
    (obs : list Burst) (models : list Model) (source : string) (threads : nat)
    (weights : Weights) (disc_model : string) (kw : pytools_sampler.kwargs)
    (noise noise2 : nat -> nat -> R) (h : gmap nat (list R))
    (p : ref) (l : list R) (n w : nat) :
  pytools_sampler.kw_params kw = Some p ->
  pytools_sampler.kw_n_epochs kw = Some n ->
  pytools_sampler.kw_nwalkers kw = Some (S w) ->
  h !! p = Some l ->
  exists h' h'',
    pytools_sampler.setup_sampler get_pos get_n_epochs EnsembleSampler obs models
      source None threads weights disc_model kw noise h
    = Some (ctools_sampler.Value
              (EnsembleSampler (S w) (length l + n)%nat
                 (obs, models, weights, disc_model) threads), h')
    /\ pytools_sampler.setup_sampler get_pos get_n_epochs EnsembleSampler obs
         models source None threads weights disc_model kw noise2 h'
       = Some (ctools_sampler.Value
                 (EnsembleSampler (S w) (length l + n + n)%nat
                    (obs, models, weights, disc_model) threads), h'').
Proof.
  intros Hparams Hepochs Hwalkers Hp.
  assert (Hp' : <[p := l ++ repeat (default (-6.5) (pytools_sampler.kw_tshift kw)) n]> h
                  !! p
                = Some (l ++ repeat (default (-6.5) (pytools_sampler.kw_tshift kw)) n))
    by apply lookup_insert_eq.
  assert (Hcall : forall k h0 l0, h0 !! p = Some l0 ->
            pytools_sampler.setup_sampler get_pos get_n_epochs EnsembleSampler obs
              models source None threads weights disc_model kw k h0
            = Some (ctools_sampler.Value
                      (EnsembleSampler (S w) (length l0 + n)%nat
                         (obs, models, weights, disc_model) threads),
                    <[p := l0 ++ repeat (default (-6.5) (pytools_sampler.kw_tshift kw)) n]> h0)).
  { intros k h0 l0 H0. unfold pytools_sampler.setup_sampler.
    rewrite Hparams, Hepochs, Hwalkers. cbn [default].
    rewrite (pytools_setup_positions_eval get_pos get_n_epochs source (S w)
               (Some p) (Some n) _ _ k h0 l0 H0).
    cbn [fst snd].
    destruct (walkers_cons (default 0.001 (pytools_sampler.kw_mag kw)) k w l0
                (default (-6.5) (pytools_sampler.kw_tshift kw)) n)
      as (rest & -> & Hrest).
    cbn [length]. rewrite Hrest.
    rewrite perturb_length; rewrite ?randn_length;
      rewrite List.length_app, List.repeat_length; reflexivity. }
  eexists _, _. split; [exact (Hcall noise h l Hp) |].
  rewrite (Hcall noise2 _ _ Hp').
  rewrite List.length_app, List.repeat_length. reflexivity.
Qed.

Lemma pytools_setup_sampler_twice_witness :
  exists h' h'',
    pytools_sampler.setup_sampler (fun _ h => (0%nat, h)) (fun _ => 3%nat)
      (fun nwalkers ndim _ _ => (nwalkers, ndim)) [tt; tt; tt] [tt; tt; tt]
      "gs1826" None 4 tt "he16_a"
      (pytools_sampler.mkKwargs (Some 200%nat) (Some 0%nat) (Some 3%nat) None None)
      (fun _ _ => 0) ctools.initial_store
    = Some (ctools_sampler.Value (200%nat, (3 + 3)%nat), h')
    /\ pytools_sampler.setup_sampler (fun _ h => (0%nat, h)) (fun _ => 3%nat)
         (fun nwalkers ndim _ _ => (nwalkers, ndim)) [tt; tt; tt] [tt; tt; tt]
         "gs1826" None 4 tt "he16_a"
         (pytools_sampler.mkKwargs (Some 200%nat) (Some 0%nat) (Some 3%nat) None None)
         (fun _ _ => 1) h'
       = Some (ctools_sampler.Value (200%nat, (3 + 3 + 3)%nat), h'').
Proof.
  exact (pytools_setup_sampler_twice (fun _ h => (0%nat, h)) (fun _ => 3%nat)
           (fun nwalkers ndim _ _ => (nwalkers, ndim)) [tt; tt; tt] [tt; tt; tt]
           "gs1826" 4 tt "he16_a"
           (pytools_sampler.mkKwargs (Some 200%nat) (Some 0%nat) (Some 3%nat)
              None None)
           (fun _ _ => 0) (fun _ _ => 1) ctools.initial_store 0%nat
           [6.09; 60; 1.28] 3 199 eq_refl eq_refl eq_refl
           (lookup_singleton_eq _ _)).
Defined.

(** * The code on IEEE doubles: properties *)

(** ** Facts on doubles *)

Lemma binary_round_aux_opp (s : bool) (m e : Z) (l : SpecFloat.location) :
  SpecFloat.binary_round_aux FloatOps.prec FloatOps.emax (negb s) m e l
  = SpecFloat.SFopp (SpecFloat.binary_round_aux FloatOps.prec FloatOps.emax s m e l).
Proof.
  unfold SpecFloat.binary_round_aux.
  destruct (SpecFloat.shr_fexp _ _ m e l) as [mrs' e'].
  destruct (SpecFloat.shr_fexp _ _ _ e' SpecFloat.loc_Exact) as [mrs'' e''].
  destruct (SpecFloat.shr_m mrs''); [reflexivity | | reflexivity].
  destruct (Z.leb e'' _); reflexivity.
Qed.

Lemma SFmul_opp_r (x y : SpecFloat.spec_float) :
  FloatAxioms.SF64mul x (SpecFloat.SFopp y)
  = SpecFloat.SFopp (FloatAxioms.SF64mul x y).
Proof.
  unfold FloatAxioms.SF64mul.
  destruct x as [sx | sx | | sx mx ex], y as [sy | sy | | sy my ey];
    cbn [SpecFloat.SFmul SpecFloat.SFopp]; try reflexivity;
    try (destruct sx, sy; reflexivity).
  replace (xorb sx (negb sy)) with (negb (xorb sx sy)) by (destruct sx, sy; reflexivity).
  apply binary_round_aux_opp.
Qed.

Lemma mul_opp_r (x y : float) : (x * - y)%float = (- (x * y))%float.
Proof.
  apply FloatAxioms.Prim2SF_inj.
  rewrite FloatAxioms.mul_spec, !FloatAxioms.opp_spec, FloatAxioms.mul_spec.
  apply SFmul_opp_r.
Qed.

Lemma to_R_opp (x : float) : f64.to_R (- x)%float = option_map Ropp (f64.to_R x).
Proof.
  unfold f64.to_R. rewrite FloatAxioms.opp_spec.
  destruct (FloatOps.Prim2SF x) as [s | s | | s m e]; cbn [SpecFloat.SFopp option_map];
    try reflexivity.
  - f_equal. ring.
  - f_equal. destruct s; cbn [negb SpecFloat.cond_Zopp].
    + change (Z.opp (Zpos m)) with (Zneg m).
      rewrite <- (Ropp_involutive (IZR (Zpos m) * _)). f_equal.
      change (Zneg m) with (Z.opp (Zpos m)). rewrite opp_IZR. ring.
    + change (Z.opp (Zpos m)) with (Zneg m).
      change (Zneg m) with (Z.opp (Zpos m)). rewrite opp_IZR. ring.
Qed.

Lemma cos_opp (x : float) : f64.cos (- x)%float = f64.cos x.
Proof.
  unfold f64.cos. rewrite to_R_opp.
  destruct (f64.to_R x) as [r |]; cbn [option_map]; [| reflexivity].
  now rewrite cos_neg.
Qed.

Lemma ltb_irrefl (x : float) : (x <? x)%float = false.
Proof.
  rewrite FloatAxioms.ltb_spec. unfold SpecFloat.SFltb.
  destruct (FloatOps.Prim2SF x) as [s | s | | s m e]; cbn [SpecFloat.SFcompare];
    try reflexivity; destruct s; try reflexivity;
    rewrite Z.compare_refl, Pos.compare_cont_refl; reflexivity.
Qed.

Lemma ltb_leb (x y : float) : (x <? y)%float = true -> (x <=? y)%float = true.
Proof.
  rewrite FloatAxioms.ltb_spec, FloatAxioms.leb_spec.
  unfold SpecFloat.SFltb, SpecFloat.SFleb.
  destruct (SpecFloat.SFcompare _ _) as [[| |] |]; congruence.
Qed.

Lemma SFcompare_asym (x y : SpecFloat.spec_float) :
  SpecFloat.SFcompare x y = Some Lt -> SpecFloat.SFcompare y x = Some Gt.
Proof.
  destruct x as [sx | sx | | sx mx ex], y as [sy | sy | | sy my ey];
    cbn [SpecFloat.SFcompare]; try discriminate;
    try (destruct sx; discriminate || reflexivity);
    try (destruct sy; discriminate || reflexivity);
    try (destruct sx, sy; discriminate || reflexivity).
  assert (A : PosDef.Pos.compare_cont Eq my mx
              = CompOpp (PosDef.Pos.compare_cont Eq mx my)).
  { symmetry. apply (Pos.compare_cont_antisym mx my Eq). }
  rewrite (Z.compare_antisym ex ey), A.
  destruct sx, sy; try (discriminate || reflexivity);
    destruct (Z.compare ex ey); cbn [CompOpp]; try (discriminate || reflexivity);
    destruct (Pos.compare_cont Eq mx my); cbn [CompOpp]; discriminate || reflexivity.
Qed.

Lemma ltb_asym (x y : float) : (x <? y)%float = true -> (y <? x)%float = false.
Proof.
  rewrite !FloatAxioms.ltb_spec. unfold SpecFloat.SFltb.
  destruct (SpecFloat.SFcompare (FloatOps.Prim2SF x) (FloatOps.Prim2SF y))
    as [[| |] |] eqn:E; try discriminate.
  now rewrite (SFcompare_asym _ _ E).
Qed.
(** ** Bounds on pi and on the sine *)

Lemma PI_digits : 3.141592653589793238 < PI < 3.141592653589793239.
Proof.
  pose proof (PI_2_3_7_ineq 9) as [Hlo Hhi].
  unfold PI_2_3_7_tg, tg_alt, Ratan_seq in Hlo, Hhi.
  cbn -[pow Rmult Rplus Rinv Rdiv INR IZR] in Hlo, Hhi.
  repeat rewrite INR_IZR_INZ in Hlo.
  repeat rewrite INR_IZR_INZ in Hhi.
  lazy beta iota delta [Z.of_nat Pos.of_succ_nat Pos.succ] in Hlo, Hhi.
  split; lra.
Qed.

Lemma sin_lower (d : R) : 0 <= d <= 1 -> d - d ^ 3 / 6 <= sin d.
Proof.
  intros Hd.
  assert (Hpi : d <= PI) by (pose proof PI2_1; lra).
  destruct (SIN d (proj1 Hd) Hpi) as [Hlb _].
  unfold sin_lb, sin_approx, sin_term in Hlb.
  cbn -[pow Rmult Rplus Rinv Rdiv INR IZR Factorial.fact] in Hlb.
  cbn [Factorial.fact Nat.mul Nat.add] in Hlb.
  repeat rewrite INR_IZR_INZ in Hlb.
  lazy beta iota delta [Z.of_nat Pos.of_succ_nat Pos.succ] in Hlb.
  assert (H5 : 0 <= d ^ 5) by (apply pow_le; lra).
  assert (H7 : d ^ 7 <= d ^ 5).
  { replace (d ^ 7) with (d ^ 5 * (d * d)) by ring.
    rewrite <- (Rmult_1_r (d ^ 5)) at 2. apply Rmult_le_compat_l; [exact H5 | nra]. }
  lra.
Qed.

(** ** The doubles that 90, 60 and 120 degrees become in radians *)

Lemma to_R_finite (x : float) (m : positive) (e : positive) :
  FloatOps.Prim2SF x = SpecFloat.S754_finite false m (Zneg e) ->
  f64.to_R x = Some (IZR (Zpos m) / 2 ^ Pos.to_nat e).
Proof.
  intros E. unfold f64.to_R. rewrite E. reflexivity.
Qed.

Lemma radians_of_90 :
  f64.radians_of (f64.deg 90) = f64.half_pi
  /\ f64.radians_of (f64.Bare 90) = f64.half_pi
  /\ f64.radians_of (f64.rad f64.half_pi) = f64.half_pi.
Proof. repeat split; vm_compute; reflexivity. Qed.

Lemma to_R_half_pi : f64.to_R f64.half_pi = Some (7074237752028440 / 2 ^ 52).
Proof.
  rewrite (to_R_finite _ 7074237752028440 52) by (vm_compute; reflexivity).
  reflexivity.
Qed.

(** The double nearest pi/2 lies below pi/2, by about 6.1e-17, and that
    is its cosine. *)
Lemma cos_half_pi :
  exists c, f64.cos f64.half_pi = np.Fin c /\ 61 / 10 ^ 18 < c < 62 / 10 ^ 18.
Proof.
  unfold f64.cos. rewrite to_R_half_pi.
  eexists. split; [reflexivity |].
  pose proof PI_digits as [Hlo Hhi].
  set (q := 7074237752028440 / 2 ^ 52).
  assert (Hq : 6.1 / 10 ^ 17 + 1 / 10 ^ 21 < PI / 2 - q < 6.2 / 10 ^ 17)
    by (unfold q; split; lra).
  rewrite <- (sin_shift q).
  split.
  - pose proof (sin_lower (PI / 2 - q)) as Hs.
    assert (H3 : (PI / 2 - q) ^ 3 <= (PI / 2 - q) * (1 / 10 ^ 30)).
    { replace ((PI / 2 - q) ^ 3) with ((PI / 2 - q) * ((PI / 2 - q) * (PI / 2 - q))) by ring.
      apply Rmult_le_compat_l; [lra |].
      assert (Hd : PI / 2 - q <= 1 / 10 ^ 15) by lra.
      replace (1 / 10 ^ 30) with (1 / 10 ^ 15 * (1 / 10 ^ 15)) by (field; lra).
      apply Rmult_le_compat; lra. }
    assert (Hs' : PI / 2 - q - (PI / 2 - q) ^ 3 / 6 <= sin (PI / 2 - q))
      by (apply Hs; lra).
    lra.
  - pose proof (sin_lt_x (PI / 2 - q)) as Hs.
    assert (Hs' : sin (PI / 2 - q) < PI / 2 - q) by (apply Hs; lra).
    lra.
Qed.

Lemma to_R_60 : f64.to_R (f64.radians_of (f64.deg 60)) = Some (4716158501352293 / 2 ^ 52).
Proof.
  rewrite (to_R_finite _ 4716158501352293 52) by (vm_compute; reflexivity).
  reflexivity.
Qed.

Lemma to_R_120 :
  f64.to_R (f64.radians_of (f64.deg (180 - 60))) = Some (4716158501352293 / 2 ^ 51).
Proof.
  rewrite (to_R_finite _ 4716158501352293 51) by (vm_compute; reflexivity).
  reflexivity.
Qed.

(** 60 degrees and 120 degrees in radians add up to less than pi, so
    the two cosines differ in absolute value. *)
Lemma abs_cos_60_120 :
  exists c60 c120,
    np.abs (f64.cos (f64.radians_of (f64.deg 60))) = np.Fin c60
    /\ np.abs (f64.cos (f64.radians_of (f64.deg (180 - 60)))) = np.Fin c120
    /\ 0 < c120 < c60.
Proof.
  unfold f64.cos. rewrite to_R_60, to_R_120. cbn [np.abs].
  eexists _, _. split; [reflexivity |]. split; [reflexivity |].
  pose proof PI_digits as [Hlo Hhi].
  set (a := 4716158501352293 / 2 ^ 52).
  set (b := 4716158501352293 / 2 ^ 51).
  assert (Ha : 1 < a < PI / 2) by (unfold a; split; lra).
  assert (Hb : PI / 2 < b < PI) by (unfold b; split; lra).
  assert (Hab : a < PI - b) by (unfold a, b; lra).
  assert (Hca : 0 < cos a) by (apply cos_gt_0; lra).
  assert (Hcb : cos b < 0) by (apply cos_lt_0; lra).
  rewrite (Rabs_pos_eq (cos a)) by lra.
  rewrite (Rabs_left (cos b)) by exact Hcb.
  split; [lra |].
  rewrite <- Rtrigo_facts.cos_pi_minus.
  apply cos_decreasing_1; lra.
Qed.

(** ** The analytic model on doubles *)

Lemma fuji88_f64_eval (inclination : f64.angle_arg) (disk : f64.table) (g : f64.globals) :
  result (f64.anisotropy inclination "fuji88" disk g)
  = Return (f64.PyReal (np.div (np.Fin 1)
                          (np.add (np.Fin 0.5)
                             (np.abs (f64.cos (f64.radians_of inclination))))),
            f64.PyReal (np.div (np.Fin 0.5)
                          (np.abs (f64.cos (f64.radians_of inclination))))).
Proof.
  destruct inclination as [x | q]; reflexivity.
Qed.

Lemma fuji88_right_angle_eval
    (inclination : f64.angle_arg) (disk : f64.table) (g : f64.globals) :
  f64.radians_of inclination = f64.half_pi ->
  exists c,
    61 / 10 ^ 18 < c < 62 / 10 ^ 18
    /\ result (f64.anisotropy inclination "fuji88" disk g)
       = Return (f64.PyReal (np.Fin (1 / (0.5 + c))), f64.PyReal (np.Fin (0.5 / c))).
Proof.
  intros Hq. destruct cos_half_pi as (c & Hcos & Hc).
  exists c. split; [exact Hc |].
  rewrite fuji88_f64_eval, Hq, Hcos. cbn [np.abs np.add].
  rewrite (Rabs_pos_eq c) by lra.
  rewrite !div_fin by lra. reflexivity.
Qed.

(** C4, as the specification has it, fails: at 90 degrees the code
    raises nothing and returns no infinity; both factors are finite. *)
Lemma fuji88_at_90_degrees_is_finite :
  (forall e, result (f64.anisotropy (f64.deg 90) "fuji88" [] f64.fresh_globals)
             <> Raise e)
  /\ (forall xi_b, result (f64.anisotropy (f64.deg 90) "fuji88" [] f64.fresh_globals)
                   <> Return (xi_b, f64.PyReal np.PInf))
  /\ exists xi_b xi_p,
       result (f64.anisotropy (f64.deg 90) "fuji88" [] f64.fresh_globals)
       = Return (f64.PyReal (np.Fin xi_b), f64.PyReal (np.Fin xi_p)).
Proof.
  destruct (fuji88_right_angle_eval (f64.deg 90) [] f64.fresh_globals
              (proj1 radians_of_90)) as (c & _ & ->).
  split; [| split].
  - intros e. discriminate.
  - intros xi_b. discriminate.
  - eexists _, _. reflexivity.
Qed.

(** C4, amended.  At an inclination of exactly 90 degrees (as a bare
    number, in degrees, or as the double nearest pi/2 in radians) the
    analytic model neither fails nor returns an infinity.  The angle in
    radians is the double nearest pi/2, which lies below pi/2; its
    cosine c is about 6.1e-17, not zero, and the call returns a finite
    pair: xi_burst = 1/(0.5+c), less than 2 by less than 1e-15, and
    xi_persistent = 0.5/c, between 8.0e15 and 8.2e15. *)
Theorem anisotropy_fuji88_right_angle
    (inclination : f64.angle_arg) (disk : f64.table) (g : f64.globals) :
  f64.radians_of inclination = f64.half_pi ->
  exists xi_b xi_p,
    result (f64.anisotropy inclination "fuji88" disk g)
      = Return (f64.PyReal (np.Fin xi_b), f64.PyReal (np.Fin xi_p))
    /\ 2 - 1 / 10 ^ 15 < xi_b < 2
    /\ 8 * 10 ^ 15 < xi_p < 8.2 * 10 ^ 15.
Proof.
  intros Hq.
  destruct (fuji88_right_angle_eval inclination disk g Hq) as (c & Hc & E).
  exists (1 / (0.5 + c)), (0.5 / c). split; [exact E |].
  assert (Eb : 1 / (0.5 + c) * (0.5 + c) = 1) by (field; lra).
  assert (Ep : 0.5 / c * c = 0.5) by (field; lra).
  repeat split.
  - apply Rmult_lt_reg_r with (0.5 + c); [lra |]. rewrite Eb. nra.
  - apply Rmult_lt_reg_r with (0.5 + c); [lra |]. rewrite Eb. lra.
  - apply Rmult_lt_reg_r with c; [lra |]. rewrite Ep. nra.
  - apply Rmult_lt_reg_r with c; [lra |]. rewrite Ep. nra.
Qed.

Lemma anisotropy_fuji88_right_angle_witness :
  f64.radians_of (f64.Bare 90) = f64.half_pi
  /\ exists xi_b xi_p,
       result (f64.anisotropy (f64.Bare 90) "fuji88" [] f64.fresh_globals)
         = Return (f64.PyReal (np.Fin xi_b), f64.PyReal (np.Fin xi_p))
       /\ 2 - 1 / 10 ^ 15 < xi_b < 2
       /\ 8 * 10 ^ 15 < xi_p < 8.2 * 10 ^ 15.
Proof.
  assert (H : f64.radians_of (f64.Bare 90) = f64.half_pi) by (vm_compute; reflexivity).
  split; [exact H |].
  exact (anisotropy_fuji88_right_angle (f64.Bare 90) [] f64.fresh_globals H).
Defined.

(** C9, as the specification has it, fails in its second half: 60 and
    120 degrees are supplements ([180 - 60] is the double 120), and the
    analytic model returns different pairs for them. *)
Lemma fuji88_supplement_differs :
  (180 - 60)%float = 120%float
  /\ result (f64.anisotropy (f64.deg 60) "fuji88" [] f64.fresh_globals)
     <> result (f64.anisotropy (f64.deg (180 - 60)) "fuji88" [] f64.fresh_globals).
Proof.
  split; [vm_compute; reflexivity |].
  destruct abs_cos_60_120 as (c60 & c120 & E60 & E120 & Hc).
  rewrite !fuji88_f64_eval, E60, E120.
  rewrite !div_fin by lra.
  intros E. injection E as _ E.
  apply Rmult_eq_compat_r with (r := c60 * c120) in E.
  field_simplify in E; lra.
Qed.

(** C9, amended.  The analytic model is symmetric under a sign flip of
    the angle: for every double theta, given in degrees, as a bare
    number or in radians, the call at -theta does what the call at theta
    does.  (Under the supplement it is symmetric in exact arithmetic
    only.) *)
Theorem anisotropy_fuji88_sign_flip
    (theta : float) (disk : f64.table) (g : f64.globals) :
  f64.anisotropy (f64.deg (- theta)) "fuji88" disk g
    = f64.anisotropy (f64.deg theta) "fuji88" disk g
  /\ f64.anisotropy (f64.Bare (- theta)) "fuji88" disk g
     = f64.anisotropy (f64.Bare theta) "fuji88" disk g
  /\ f64.anisotropy (f64.rad (- theta)) "fuji88" disk g
     = f64.anisotropy (f64.rad theta) "fuji88" disk g.
Proof.
  assert (Hdeg : f64.cos (f64.degree_scale / 1 * - theta)%float
                 = f64.cos (f64.degree_scale / 1 * theta)%float)
    by (rewrite mul_opp_r; apply cos_opp).
  pose proof (cos_opp theta) as Hrad.
  unfold f64.anisotropy, f64.deg, f64.rad.
  cbn [String.eqb Ascii.eqb Bool.eqb f64.to f64.unit_of f64.value].
  rewrite Hdeg, Hrad. repeat split.
Qed.
(** ** The tabulated model on doubles *)

Lemma ascending_nth (x : list float) (i j : nat) :
  f64.ascending x -> (i < j < length x)%nat ->
  (nth i x 0 <? nth j x 0)%float = true.
Proof.
  intros Hs. revert i j.
  induction Hs as [| a l Hs IH Hall]; intros i j Hij; [cbn in Hij; lia |].
  destruct j as [| j]; [lia |]. cbn [length] in Hij.
  destruct i as [| i]; cbn [nth].
  - rewrite List.Forall_forall in Hall. apply Hall, List.nth_In. lia.
  - apply IH. lia.
Qed.

Lemma searchsorted_ascending (x : list float) (k : nat) :
  f64.ascending x -> (k < length x)%nat ->
  f64.searchsorted x (nth k x 0%float) = k.
Proof.
  intros Hs. revert k.
  induction Hs as [| a l Hs IH Hall]; intros k Hk; [cbn in Hk; lia |].
  destruct k as [| k]; cbn [nth f64.searchsorted].
  - now rewrite ltb_irrefl.
  - cbn [length] in Hk.
    rewrite List.Forall_forall in Hall.
    rewrite (Hall (nth k l 0%float)) by (apply List.nth_In; lia).
    f_equal. apply IH. lia.
Qed.

Lemma argsort_ascending (l : list f64.node) :
  f64.ascending (map fst l) -> f64.argsort l = l.
Proof.
  induction l as [| a l IH]; intros Hs; [reflexivity |].
  cbn [map] in Hs. inversion Hs as [| ? ? Hl Hall]; subst.
  cbn [f64.argsort]. rewrite (IH Hl).
  destruct l as [| b l']; [reflexivity |].
  cbn [f64.insert]. cbn [map] in Hall.
  apply List.Forall_inv in Hall. now rewrite (ltb_leb _ _ Hall).
Qed.

Lemma f64_combine_columns (a : f64.table) :
  combine (map f64.col1 a) (f64.stack_columns a) = map f64.node_of a.
Proof.
  unfold f64.stack_columns. induction a as [| r a IH]; cbn; [reflexivity |].
  now rewrite IH.
Qed.

Lemma f64_init_nonempty (a : f64.table) :
  a <> [] ->
  f64.init (map f64.col1 a) (f64.stack_columns a)
  = Return (f64.mkInterp1d
              (f64.argsort (combine (map f64.col1 a) (f64.stack_columns a)))).
Proof.
  destruct a as [| r a]; [contradiction | reflexivity].
Qed.

Lemma f64_he16_eval (t disk : f64.table) (g : f64.globals) (inclination : f64.angle_arg) :
  f64.serves t disk g ->
  result (f64.anisotropy inclination "he16" disk g)
  = match f64.init (map f64.col1 t) (f64.stack_columns t) with
    | Raise e => Raise e
    | Return f =>
        match f64.call f (f64.degrees_of inclination) with
        | Raise e => Raise e
        | Return (inv_xi_d, inv_xi_r, inv_xi_p) =>
            Return (f64.PyFloat (1 / (inv_xi_d + inv_xi_r))%float,
                    f64.PyFloat (1 / inv_xi_p)%float)
        end
    end.
Proof.
  unfold f64.serves, f64.anisotropy. cbn [String.eqb Ascii.eqb Bool.eqb].
  destruct (f64.anisotropy_he16 g) as [f |].
  - intros ->.
    destruct inclination as [x | q]; cbn [f64.degrees_of f64.to f64.value f64.unit_of];
      destruct (f64.call f _) as [[[a b] c] | e]; reflexivity.
  - intros ->.
    destruct (f64.init (map f64.col1 t) (f64.stack_columns t)) as [f | e];
      [| destruct inclination; reflexivity].
    destruct inclination as [x | q]; cbn [f64.degrees_of f64.to f64.value f64.unit_of];
      destruct (f64.call f _) as [[[a b] c] | e]; reflexivity.
Qed.

(** On an ascending grid the query at node [k] is interpolated on the
    interval that ends at node [k]; on the first interval, for [k = 0]. *)
Lemma f64_call_at_node (t : f64.table) (k : nat) :
  f64.ascending (map f64.col1 t) ->
  (2 <= length t)%nat -> (k < length t)%nat ->
  let lo := nth (Nat.max k 1 - 1) t f64.row0 in
  let hi := nth (Nat.max k 1) t f64.row0 in
  let x := f64.col1 (nth k t f64.row0) in
  f64.call (f64.mkInterp1d (map f64.node_of t)) x
  = Return (f64.lerp (f64.col1 lo) (f64.col1 hi) (f64.col2 lo) (f64.col2 hi) x,
            f64.lerp (f64.col1 lo) (f64.col1 hi) (f64.col3 lo) (f64.col3 hi) x,
            f64.lerp (f64.col1 lo) (f64.col1 hi) (f64.col4 lo) (f64.col4 hi) x).
Proof.
  intros Hs Hlen Hk lo hi x.
  assert (Exs : map fst (map f64.node_of t) = map f64.col1 t)
    by (rewrite List.map_map; reflexivity).
  assert (Eys : map snd (map f64.node_of t) = f64.stack_columns t)
    by (rewrite List.map_map; reflexivity).
  assert (Hn : length (map f64.col1 t) = length t) by apply List.length_map.
  assert (Hx : forall i, nth i (map f64.col1 t) 0%float = f64.col1 (nth i t f64.row0)).
  { intros i. apply (List.map_nth f64.col1 t f64.row0). }
  assert (Hy : forall i, nth i (f64.stack_columns t) (0, 0, 0)%float
                         = (let r := nth i t f64.row0 in
                            (f64.col2 r, f64.col3 r, f64.col4 r))).
  { intros i. apply (List.map_nth (fun r => (f64.col2 r, f64.col3 r, f64.col4 r))
                       t f64.row0). }
  assert (Hne : map f64.col1 t <> []) by (destruct t; [cbn in Hlen; lia | discriminate]).
  unfold f64.call, f64.call_linear, f64.xs, f64.ys. cbn [f64.nodes].
  rewrite Exs, Eys.
  (* the bounds check passes *)
  rewrite (getitem_nat 0%float _ 0 : np.getitem 0%float (map f64.col1 t) 0 = _).
  rewrite (getitem_last 0%float _ Hne), Hn, !Hx.
  fold x.
  assert (Hfirst : (x <? f64.col1 (nth 0 t f64.row0))%float = false).
  { destruct k as [| k]; [apply ltb_irrefl |].
    apply ltb_asym. unfold x. rewrite <- !Hx. apply ascending_nth; [exact Hs | lia]. }
  assert (Hlast : (f64.col1 (nth (length t - 1) t f64.row0) <? x)%float = false).
  { destruct (Nat.eq_dec k (length t - 1)%nat) as [E | Hklast];
      [unfold x; rewrite E; apply ltb_irrefl |].
    apply ltb_asym. unfold x. rewrite <- !Hx. apply ascending_nth; [exact Hs | lia]. }
  rewrite Hfirst, Hlast.
  (* the bracketing nodes *)
  assert (Hss : f64.searchsorted (map f64.col1 t) x = k).
  { unfold x. rewrite <- Hx. apply searchsorted_ascending; [exact Hs | lia]. }
  rewrite Hss.
  assert (Hclip : np.clip (Z.of_nat k) 1 (Z.of_nat (length t) - 1)
                  = Z.of_nat (Nat.max k 1)) by (unfold np.clip; lia).
  rewrite Hclip.
  replace (Z.of_nat (Nat.max k 1) - 1)%Z with (Z.of_nat (Nat.max k 1 - 1)) by lia.
  rewrite !getitem_nat, !Hx, !Hy. reflexivity.
Qed.

(** C3, as the specification has it, fails: on the table of the rows
    (0, 1.5, 0.5, 0.3) and (10, 1, 0.25, 0.1) the query at the grid point
    10 gives 9.999999999999996 for xi_persistent, where the row has
    1/0.1 = 10. *)
Lemma he16_grid_point_not_exact :
  In (f64.mkRow 10 1 0.25 0.1) f64.two_rows
  /\ result (f64.anisotropy (f64.deg 10) "he16" f64.two_rows f64.fresh_globals)
     = Return (f64.PyFloat 0.8, f64.PyFloat 9.999999999999996)
  /\ (1 / (1 + 0.25))%float = 0.8%float
  /\ (1 / 0.1)%float = 10%float
  /\ result (f64.anisotropy (f64.deg 10) "he16" f64.two_rows f64.fresh_globals)
     <> Return (f64.PyFloat (1 / (1 + 0.25)), f64.PyFloat (1 / 0.1)).
Proof.
  assert (E : result (f64.anisotropy (f64.deg 10) "he16" f64.two_rows f64.fresh_globals)
              = Return (f64.PyFloat 0.8, f64.PyFloat 9.999999999999996))
    by (vm_compute; reflexivity).
  split; [right; left; reflexivity |].
  split; [exact E |].
  split; [vm_compute; reflexivity |].
  split; [vm_compute; reflexivity |].
  rewrite E. intros H.
  apply (f_equal (fun o => match o with
                           | Return (_, f64.PyFloat x) => FloatOps.Prim2SF x
                           | _ => SpecFloat.S754_nan
                           end)) in H.
  vm_compute in H. discriminate H.
Qed.

(** C3, amended.  At a grid point of the reference table (at least two
    rows, inclinations ascending), the tabulated model 'he16' raises
    nothing and returns 1/(d + r) and 1/p, where d, r and p are the three
    columns interpolated in float64 on the table interval that ends at
    the grid point (that starts at it, for the first row): each is
    slope*(x - x_lo) + y_lo with slope = (y_hi - y_lo)/(x_hi - x_lo),
    rounded at every operation.  In exact arithmetic these are the
    values of the row; in float64 they can miss them in the last
    digits. *)
Theorem anisotropy_he16_grid_point_rounded
    (t disk : f64.table) (g : f64.globals) (inclination : f64.angle_arg) (k : nat) :
  f64.serves t disk g ->
  f64.ascending (map f64.col1 t) ->
  (2 <= length t)%nat ->
  (k < length t)%nat ->
  f64.degrees_of inclination = f64.col1 (nth k t f64.row0) ->
  let lo := nth (Nat.max k 1 - 1) t f64.row0 in
  let hi := nth (Nat.max k 1) t f64.row0 in
  let x := f64.col1 (nth k t f64.row0) in
  let d := f64.lerp (f64.col1 lo) (f64.col1 hi) (f64.col2 lo) (f64.col2 hi) x in
  let r := f64.lerp (f64.col1 lo) (f64.col1 hi) (f64.col3 lo) (f64.col3 hi) x in
  let p := f64.lerp (f64.col1 lo) (f64.col1 hi) (f64.col4 lo) (f64.col4 hi) x in
  result (f64.anisotropy inclination "he16" disk g)
  = Return (f64.PyFloat (1 / (d + r)), f64.PyFloat (1 / p)).
Proof.
  intros Hserves Hs Hlen Hk Hdeg lo hi x d r p.
  rewrite (f64_he16_eval t) by exact Hserves.
  assert (Hinit : f64.init (map f64.col1 t) (f64.stack_columns t)
                  = Return (f64.mkInterp1d (map f64.node_of t))).
  { rewrite f64_init_nonempty by (destruct t; [cbn in Hlen; lia | discriminate]).
    rewrite f64_combine_columns, argsort_ascending; [reflexivity |].
    rewrite List.map_map. exact Hs. }
  rewrite Hinit, Hdeg.
  rewrite (f64_call_at_node t k Hs Hlen Hk). reflexivity.
Qed.

Lemma anisotropy_he16_grid_point_rounded_witness :
  result (f64.anisotropy (f64.deg 10) "he16" f64.two_rows f64.fresh_globals)
  = Return (f64.PyFloat (1 / (f64.lerp 0 10 1.5 1 10 + f64.lerp 0 10 0.5 0.25 10)),
            f64.PyFloat (1 / f64.lerp 0 10 0.3 0.1 10)).
Proof.
  refine (anisotropy_he16_grid_point_rounded f64.two_rows f64.two_rows
            f64.fresh_globals (f64.deg 10) 1 _ _ _ _ _).
  - reflexivity.
  - repeat constructor.
  - cbn. lia.
  - cbn. lia.
  - reflexivity.
Defined.
(** ** The unit of the inclination, on doubles *)

(** X3.  The unit in which the angle is given matters in the last digit.
    29 degrees written in radians, 29*pi/180, comes back from the
    conversion to degrees as 29.000000000000004.  On a table that ends
    at 29 degrees the tabulated model therefore raises a ValueError for
    the angle in radians, where it returns a pair of numbers for the
    same angle in degrees. *)
Theorem anisotropy_radians_round_trip :
  f64.degrees_of (f64.rad (29 * f64.pi / 180)) = 29.000000000000004%float
  /\ result (f64.anisotropy (f64.deg 29) "he16" f64.up_to_29 f64.fresh_globals)
     = Return (f64.PyFloat 0.8, f64.PyFloat 2)
  /\ result (f64.anisotropy (f64.rad (29 * f64.pi / 180)) "he16" f64.up_to_29
               f64.fresh_globals)
     = Raise (ValueError "A value in x_new is above the interpolation range.").
Proof.
  repeat split; vm_compute; reflexivity.
Qed.
